(** * Credential relay of the AWS Documents language client

    A shallow embedding of [credentialsActivation.ts] and of the launch
    sequence [activateDocumentsLanguageServer], together with the platform
    functions they call: [Buffer.toString('base64')], [JSON.stringify],
    [TextEncoder.encode], [crypto.randomBytes] and jose's [CompactEncrypt]
    (JWE compact serialization, [alg: dir], [enc: A256GCM]).

    Bytes are [ascii] (eight booleans, least significant first), so every
    byte is in range by construction.  JavaScript strings are sequences of
    16-bit code units. *)

From Stdlib Require Import Bool Arith Lia Ascii String NArith DecimalString List.
Import ListNotations.

Set Warnings "-register-all".

(* ------------------------------------------------------------------ *)
(** ** Bytes *)

Abbreviation byte := ascii.
Abbreviation bytes := (list ascii).

Definition str (s : string) : bytes := list_ascii_of_string s.

Definition xor_byte (a b : byte) : byte :=
  match a, b with
  | Ascii a0 a1 a2 a3 a4 a5 a6 a7, Ascii b0 b1 b2 b3 b4 b5 b6 b7 =>
      Ascii (xorb a0 b0) (xorb a1 b1) (xorb a2 b2) (xorb a3 b3)
            (xorb a4 b4) (xorb a5 b5) (xorb a6 b6) (xorb a7 b7)
  end.

(** XOR of two buffers, truncated to the shorter one. *)
Fixpoint xor_bytes (p k : bytes) : bytes :=
  match p, k with
  | a :: p', b :: k' => xor_byte a b :: xor_bytes p' k'
  | _, _ => []
  end.

Definition bytes_eqb (a b : bytes) : bool :=
  if list_eq_dec ascii_dec a b then true else false.

(* ------------------------------------------------------------------ *)
(** ** Base64 (RFC 4648)

    [Buffer.toString('base64')] uses the standard alphabet with [=]
    padding; jose's compact serialization uses the URL-safe alphabet
    without padding. *)

Module Base64.

Inductive sextet := Sx (b5 b4 b3 b2 b1 b0 : bool).

Definition sextet_to_nat (s : sextet) : nat :=
  match s with
  | Sx b5 b4 b3 b2 b1 b0 =>
      32 * Nat.b2n b5 + 16 * Nat.b2n b4 + 8 * Nat.b2n b3
      + 4 * Nat.b2n b2 + 2 * Nat.b2n b1 + Nat.b2n b0
  end.

Definition nat_to_sextet (n : nat) : sextet :=
  Sx (Nat.testbit n 5) (Nat.testbit n 4) (Nat.testbit n 3)
     (Nat.testbit n 2) (Nat.testbit n 1) (Nat.testbit n 0).

Definition std_alphabet : bytes :=
  str "ABCDEFGHIJKLMNOPQRSTUVWXYZabcdefghijklmnopqrstuvwxyz0123456789+/".
Definition url_alphabet : bytes :=
  str "ABCDEFGHIJKLMNOPQRSTUVWXYZabcdefghijklmnopqrstuvwxyz0123456789-_".

Definition char_of_sextet (alpha : bytes) (s : sextet) : byte :=
  nth (sextet_to_nat s) alpha "A"%char.

Fixpoint index_of (c : byte) (l : bytes) : option nat :=
  match l with
  | [] => None
  | x :: l' => if Ascii.eqb c x then Some 0 else option_map S (index_of c l')
  end.

Definition sextet_of_char (alpha : bytes) (c : byte) : option sextet :=
  option_map nat_to_sextet (index_of c alpha).

(** The sextets of one, two and three input bytes, most significant bit
    first. *)
Definition sextets1 (a : byte) : sextet * sextet :=
  match a with
  | Ascii a0 a1 a2 a3 a4 a5 a6 a7 =>
      (Sx a7 a6 a5 a4 a3 a2, Sx a1 a0 false false false false)
  end.

Definition sextets2 (a b : byte) : sextet * sextet * sextet :=
  match a, b with
  | Ascii a0 a1 a2 a3 a4 a5 a6 a7, Ascii b0 b1 b2 b3 b4 b5 b6 b7 =>
      (Sx a7 a6 a5 a4 a3 a2, Sx a1 a0 b7 b6 b5 b4, Sx b3 b2 b1 b0 false false)
  end.

Definition sextets3 (a b c : byte) : sextet * sextet * sextet * sextet :=
  match a, b, c with
  | Ascii a0 a1 a2 a3 a4 a5 a6 a7, Ascii b0 b1 b2 b3 b4 b5 b6 b7,
    Ascii c0 c1 c2 c3 c4 c5 c6 c7 =>
      (Sx a7 a6 a5 a4 a3 a2, Sx a1 a0 b7 b6 b5 b4,
       Sx b3 b2 b1 b0 c7 c6, Sx c5 c4 c3 c2 c1 c0)
  end.

Definition pad_char : byte := "="%char.

(** [encode alpha padded bs]: the base64 text of [bs]. *)
Fixpoint encode (alpha : bytes) (padded : bool) (bs : bytes) : bytes :=
  match bs with
  | [] => []
  | [a] =>
      let '(s1, s2) := sextets1 a in
      char_of_sextet alpha s1 :: char_of_sextet alpha s2
      :: (if padded then [pad_char; pad_char] else [])
  | [a; b] =>
      let '(s1, s2, s3) := sextets2 a b in
      char_of_sextet alpha s1 :: char_of_sextet alpha s2
      :: char_of_sextet alpha s3
      :: (if padded then [pad_char] else [])
  | a :: b :: c :: rest =>
      let '(s1, s2, s3, s4) := sextets3 a b c in
      char_of_sextet alpha s1 :: char_of_sextet alpha s2
      :: char_of_sextet alpha s3 :: char_of_sextet alpha s4
      :: encode alpha padded rest
  end.

Definition bytes_of_sextets4 (s1 s2 s3 s4 : sextet) : bytes :=
  match s1, s2, s3, s4 with
  | Sx a7 a6 a5 a4 a3 a2, Sx a1 a0 b7 b6 b5 b4,
    Sx b3 b2 b1 b0 c7 c6, Sx c5 c4 c3 c2 c1 c0 =>
      [Ascii a0 a1 a2 a3 a4 a5 a6 a7; Ascii b0 b1 b2 b3 b4 b5 b6 b7;
       Ascii c0 c1 c2 c3 c4 c5 c6 c7]
  end.

Definition bytes_of_sextets3 (s1 s2 s3 : sextet) : bytes :=
  match s1, s2, s3 with
  | Sx a7 a6 a5 a4 a3 a2, Sx a1 a0 b7 b6 b5 b4, Sx b3 b2 b1 b0 _ _ =>
      [Ascii a0 a1 a2 a3 a4 a5 a6 a7; Ascii b0 b1 b2 b3 b4 b5 b6 b7]
  end.

Definition bytes_of_sextets2 (s1 s2 : sextet) : bytes :=
  match s1, s2 with
  | Sx a7 a6 a5 a4 a3 a2, Sx a1 a0 _ _ _ _ =>
      [Ascii a0 a1 a2 a3 a4 a5 a6 a7]
  end.

(** Decoding of text without padding characters.  A single trailing
    character carries fewer than eight bits and is rejected. *)
Fixpoint decode_unpadded (alpha : bytes) (cs : bytes) : option bytes :=
  match cs with
  | [] => Some []
  | [_] => None
  | [c1; c2] =>
      match sextet_of_char alpha c1, sextet_of_char alpha c2 with
      | Some s1, Some s2 => Some (bytes_of_sextets2 s1 s2)
      | _, _ => None
      end
  | [c1; c2; c3] =>
      match sextet_of_char alpha c1, sextet_of_char alpha c2,
            sextet_of_char alpha c3 with
      | Some s1, Some s2, Some s3 => Some (bytes_of_sextets3 s1 s2 s3)
      | _, _, _ => None
      end
  | c1 :: c2 :: c3 :: c4 :: rest =>
      match sextet_of_char alpha c1, sextet_of_char alpha c2,
            sextet_of_char alpha c3, sextet_of_char alpha c4 with
      | Some s1, Some s2, Some s3, Some s4 =>
          option_map (app (bytes_of_sextets4 s1 s2 s3 s4))
                     (decode_unpadded alpha rest)
      | _, _, _, _ => None
      end
  end.

(** Removes up to two trailing [=]. *)
Definition strip_padding (cs : bytes) : bytes :=
  match rev cs with
  | p1 :: p2 :: r =>
      if Ascii.eqb p1 pad_char
      then if Ascii.eqb p2 pad_char then rev r else rev (p2 :: r)
      else cs
  | [p1] => if Ascii.eqb p1 pad_char then [] else cs
  | [] => []
  end.

Definition decode (alpha : bytes) (padded : bool) (cs : bytes) : option bytes :=
  decode_unpadded alpha (if padded then strip_padding cs else cs).

(** [buf.toString('base64')] and its inverse [Buffer.from(s, 'base64')]. *)
Definition toString_base64 (bs : bytes) : bytes := encode std_alphabet true bs.
Definition from_base64 (cs : bytes) : option bytes := decode std_alphabet true cs.

(** jose's [base64url.encode] / [base64url.decode]. *)
Definition base64url_encode (bs : bytes) : bytes := encode url_alphabet false bs.
Definition base64url_decode (cs : bytes) : option bytes := decode url_alphabet false cs.

End Base64.

(* ------------------------------------------------------------------ *)
(** ** JavaScript strings

    A JavaScript string is a sequence of 16-bit code units.  [C16 hi lo]
    is the unit with high byte [hi] and low byte [lo]. *)

Inductive char16 := C16 (hi lo : ascii).

Abbreviation jsstring := (list char16).

Definition char16_eqb (c d : char16) : bool :=
  match c, d with
  | C16 h l, C16 h' l' => Ascii.eqb h h' && Ascii.eqb l l'
  end.

(** The code unit of a Latin-1 character, and string literals. *)
Definition of_ascii (a : ascii) : char16 := C16 zero a.
Definition js (s : string) : jsstring := map of_ascii (list_ascii_of_string s).

(** Code units 0xD800..0xDBFF and 0xDC00..0xDFFF. *)
Definition is_high_surrogate (c : char16) : bool :=
  match c with
  | C16 (Ascii _ _ false true true false true true) _ => true
  | _ => false
  end.

Definition is_low_surrogate (c : char16) : bool :=
  match c with
  | C16 (Ascii _ _ true true true false true true) _ => true
  | _ => false
  end.

(** No unpaired surrogate: what [String.prototype.isWellFormed] tests. *)
Fixpoint isWellFormed (s : jsstring) : bool :=
  match s with
  | [] => true
  | c :: rest =>
      if is_high_surrogate c then
        match rest with
        | d :: rest' => is_low_surrogate d && isWellFormed rest'
        | [] => false
        end
      else negb (is_low_surrogate c) && isWellFormed rest
  end.

(* ------------------------------------------------------------------ *)
(** ** UTF-8: [TextEncoder.encode] and [TextDecoder.decode] *)

Module Utf8.

(** Four-bit increment with carry out: the plane number [u = w + 1] of
    a surrogate pair, as [(u4, u3, u2, u1, u0)]. *)
Definition inc4 (w3 w2 w1 w0 : bool) : bool * bool * bool * bool * bool :=
  (w3 && w2 && w1 && w0,
   xorb w3 (w2 && w1 && w0),
   xorb w2 (w1 && w0),
   xorb w1 w0,
   negb w0).

(** Five-bit decrement; [None] unless the result fits in four bits
    (that is, unless [1 <= u <= 16]). *)
Definition dec5 (u4 u3 u2 u1 u0 : bool) : option (bool * bool * bool * bool) :=
  let br1 := negb u0 in
  let br2 := negb u1 && br1 in
  let br3 := negb u2 && br2 in
  let br4 := negb u3 && br3 in
  if xorb u4 br4 then None
  else Some (xorb u3 br3, xorb u2 br2, xorb u1 br1, negb u0).

Definition replacement : bytes := ["239"; "191"; "189"]%char.

(** UTF-8 bytes of one code unit outside the surrogate range. *)
Definition encode_bmp (c : char16) : bytes :=
  match c with
  | C16 (Ascii false false false false false false false false)
        (Ascii l0 l1 l2 l3 l4 l5 l6 false) =>
      [Ascii l0 l1 l2 l3 l4 l5 l6 false]
  | C16 (Ascii h0 h1 h2 false false false false false)
        (Ascii l0 l1 l2 l3 l4 l5 l6 l7) =>
      [Ascii l6 l7 h0 h1 h2 false true true;
       Ascii l0 l1 l2 l3 l4 l5 false true]
  | C16 (Ascii h0 h1 h2 h3 h4 h5 h6 h7) (Ascii l0 l1 l2 l3 l4 l5 l6 l7) =>
      [Ascii h4 h5 h6 h7 false true true true;
       Ascii l6 l7 h0 h1 h2 h3 false true;
       Ascii l0 l1 l2 l3 l4 l5 false true]
  end.

(** UTF-8 bytes of the supplementary code point of a surrogate pair. *)
Definition encode_pair (c d : char16) : bytes :=
  match c, d with
  | C16 (Ascii w2 w3 _ _ _ _ _ _) (Ascii x0 x1 x2 x3 x4 x5 w0 w1),
    C16 (Ascii y8 y9 _ _ _ _ _ _) (Ascii y0 y1 y2 y3 y4 y5 y6 y7) =>
      let '(u4, u3, u2, u1, u0) := inc4 w3 w2 w1 w0 in
      [Ascii u2 u3 u4 false true true true true;
       Ascii x2 x3 x4 x5 u0 u1 false true;
       Ascii y6 y7 y8 y9 x0 x1 false true;
       Ascii y0 y1 y2 y3 y4 y5 false true]
  end.

(** [new TextEncoder().encode(s)]: an unpaired surrogate is replaced by
    U+FFFD. *)
Fixpoint encode (s : jsstring) : bytes :=
  match s with
  | [] => []
  | c :: rest =>
      if is_high_surrogate c then
        match rest with
        | d :: rest' =>
            if is_low_surrogate d then encode_pair c d ++ encode rest'
            else replacement ++ encode rest
        | [] => replacement
        end
      else if is_low_surrogate c then replacement ++ encode rest
      else encode_bmp c ++ encode rest
  end.

(** Strict decoding: overlong forms, encoded surrogates, code points
    above U+10FFFF and truncated sequences are rejected. *)
Fixpoint decode (bs : bytes) : option jsstring :=
  match bs with
  | [] => Some []
  | Ascii l0 l1 l2 l3 l4 l5 l6 false :: rest =>
      option_map (cons (C16 zero (Ascii l0 l1 l2 l3 l4 l5 l6 false)))
                 (decode rest)
  | Ascii l6 l7 h0 h1 h2 false true true :: rest =>
      match rest with
      | Ascii l0 l1 l2 l3 l4 l5 false true :: rest' =>
          if h2 || h1 || h0 || l7 then
            option_map
              (cons (C16 (Ascii h0 h1 h2 false false false false false)
                         (Ascii l0 l1 l2 l3 l4 l5 l6 l7)))
              (decode rest')
          else None
      | _ => None
      end
  | Ascii h4 h5 h6 h7 false true true true :: rest =>
      match rest with
      | Ascii l6 l7 h0 h1 h2 h3 false true
        :: Ascii l0 l1 l2 l3 l4 l5 false true :: rest' =>
          let c := C16 (Ascii h0 h1 h2 h3 h4 h5 h6 h7)
                       (Ascii l0 l1 l2 l3 l4 l5 l6 l7) in
          if (h7 || h6 || h5 || h4 || h3)
             && negb (is_high_surrogate c) && negb (is_low_surrogate c)
          then option_map (cons c) (decode rest')
          else None
      | _ => None
      end
  | Ascii u2 u3 u4 false true true true true :: rest =>
      match rest with
      | Ascii x2 x3 x4 x5 u0 u1 false true
        :: Ascii y6 y7 y8 y9 x0 x1 false true
        :: Ascii y0 y1 y2 y3 y4 y5 false true :: rest' =>
          match dec5 u4 u3 u2 u1 u0 with
          | Some (w3, w2, w1, w0) =>
              option_map
                (fun r =>
                   C16 (Ascii w2 w3 false true true false true true)
                       (Ascii x0 x1 x2 x3 x4 x5 w0 w1)
                   :: C16 (Ascii y8 y9 true true true false true true)
                          (Ascii y0 y1 y2 y3 y4 y5 y6 y7)
                   :: r)
                (decode rest')
          | None => None
          end
      | _ => None
      end
  | _ => None
  end.

End Utf8.

(* ------------------------------------------------------------------ *)
(** ** JavaScript values and JSON *)

Module Json.

(** Numbers: [NaN], the two infinities, and the integral values of
    magnitude below 2^53 with their sign, so that [Integer true 0 _] is the
    negative zero.  Below 2^53 every integer is a number, and its text is
    its plain decimal notation.  Fractions and larger finite values are not
    represented. *)
Inductive JsNumber :=
| NaN
| Infinity (negative : bool)
| Integer (negative : bool) (magnitude : N)
          (safe : (magnitude <? 9007199254740992)%N = true).

(** JavaScript values without functions and host objects.  [JObject] is
    an ordinary object, as an object literal or [JSON.parse] creates it:
    extensible, and each of its properties a writable data property.  It is
    the list of its own enumerable properties in insertion order, which is
    the order [JSON.stringify] follows.  An array has its elements and,
    being an object, its other own properties.  [JGuarded] is an object on
    which assignments can fail: the properties named in [readonly] reject
    an assignment (a data property that is not writable, or an accessor
    without a setter, read as its value), and unless [extensible] no
    property can be added (as after [Object.preventExtensions],
    [Object.seal] or [Object.freeze]).  Accessors with a setter, setters
    on a prototype and proxies are not represented. *)
Inductive JsValue :=
| JUndefined
| JNull
| JBool (b : bool)
| JString (s : jsstring)
| JObject (props : list (jsstring * JsValue))
| JArray (items : list JsValue) (props : list (jsstring * JsValue))
| JNumber (n : JsNumber)
| JGuarded (extensible : bool) (readonly : list jsstring)
           (props : list (jsstring * JsValue)).

Definition jsstring_eqb (a b : jsstring) : bool :=
  (length a =? length b) && forallb (fun p => char16_eqb (fst p) (snd p)) (combine a b).

(** [o[k]]: property read. *)
Fixpoint obj_get (props : list (jsstring * JsValue)) (k : jsstring) : JsValue :=
  match props with
  | [] => JUndefined
  | (k', v) :: rest => if jsstring_eqb k k' then v else obj_get rest k
  end.

Fixpoint obj_has (props : list (jsstring * JsValue)) (k : jsstring) : bool :=
  match props with
  | [] => false
  | (k', _) :: rest => jsstring_eqb k k' || obj_has rest k
  end.

(** [o[k] = v]: an existing property keeps its position, a new one is
    added last. *)
Fixpoint obj_set (props : list (jsstring * JsValue)) (k : jsstring) (v : JsValue)
  : list (jsstring * JsValue) :=
  match props with
  | [] => [(k, v)]
  | (k', v') :: rest =>
      if jsstring_eqb k k' then (k', v) :: rest
      else (k', v') :: obj_set rest k v
  end.

(** ToBoolean. *)
Definition truthy (v : JsValue) : bool :=
  match v with
  | JUndefined | JNull | JBool false | JString [] => false
  | JNumber NaN | JNumber (Integer _ N0 _) => false
  | _ => true
  end.

(** Number::toString of an integral value. *)
Definition number_text (negative : bool) (magnitude : N) : jsstring :=
  (if negative && negb (N.eqb magnitude 0) then js "-" else [])
  ++ js (NilZero.string_of_uint (N.to_uint magnitude)).

(** *** Characters *)

Definition dquote : char16 := of_ascii "034".
Definition backslash : char16 := of_ascii "\".

(** Code units below 0x20. *)
Definition is_control (c : char16) : bool :=
  match c with
  | C16 (Ascii false false false false false false false false)
        (Ascii _ _ _ _ _ false false false) => true
  | _ => false
  end.

Definition hex_digit (b3 b2 b1 b0 : bool) : ascii :=
  nth (8 * Nat.b2n b3 + 4 * Nat.b2n b2 + 2 * Nat.b2n b1 + Nat.b2n b0)
      (str "0123456789abcdef") "0"%char.

(** UnicodeEscape: [\uXXXX] with lowercase hexadecimal digits. *)
Definition unicode_escape (c : char16) : jsstring :=
  match c with
  | C16 (Ascii h0 h1 h2 h3 h4 h5 h6 h7) (Ascii l0 l1 l2 l3 l4 l5 l6 l7) =>
      backslash :: of_ascii "u"
      :: map of_ascii [hex_digit h7 h6 h5 h4; hex_digit h3 h2 h1 h0;
                       hex_digit l7 l6 l5 l4; hex_digit l3 l2 l1 l0]
  end.

(** The text of one code unit outside the surrogate range. *)
Definition escape_char (c : char16) : jsstring :=
  if char16_eqb c (of_ascii "008") then js "\b"
  else if char16_eqb c (of_ascii "009") then js "\t"
  else if char16_eqb c (of_ascii "010") then js "\n"
  else if char16_eqb c (of_ascii "012") then js "\f"
  else if char16_eqb c (of_ascii "013") then js "\r"
  else if char16_eqb c dquote then [backslash; dquote]
  else if char16_eqb c backslash then [backslash; backslash]
  else if is_control c then unicode_escape c
  else [c].

(** QuoteJSONString without the enclosing quotes: surrogate pairs are
    copied, unpaired surrogates are escaped. *)
Fixpoint quote_body (s : jsstring) : jsstring :=
  match s with
  | [] => []
  | c :: rest =>
      if is_high_surrogate c then
        match rest with
        | d :: rest' =>
            if is_low_surrogate d then c :: d :: quote_body rest'
            else unicode_escape c ++ quote_body rest
        | [] => unicode_escape c
        end
      else if is_low_surrogate c then unicode_escape c ++ quote_body rest
      else escape_char c ++ quote_body rest
  end.

Definition quote (s : jsstring) : jsstring := dquote :: quote_body s ++ [dquote].

Fixpoint join_comma (parts : list jsstring) : jsstring :=
  match parts with
  | [] => []
  | [x] => x
  | x :: rest => x ++ js "," ++ join_comma rest
  end.

(** *** [JSON.stringify]

    SerializeJSONProperty: [None] stands for [undefined].  A property
    whose value serializes to [undefined] is left out of its object; in an
    array it is written [null].  A number that is not finite is written
    [null]. *)
Fixpoint stringify (v : JsValue) : option jsstring :=
  match v with
  | JUndefined => None
  | JNull => Some (js "null")
  | JBool true => Some (js "true")
  | JBool false => Some (js "false")
  | JString s => Some (quote s)
  | JObject props =>
      let members :=
        (fix members (ps : list (jsstring * JsValue)) : list jsstring :=
           match ps with
           | [] => []
           | (k, x) :: rest =>
               match stringify x with
               | Some t => (quote k ++ js ":" ++ t) :: members rest
               | None => members rest
               end
           end) props in
      Some (js "{" ++ join_comma members ++ js "}")
  | JArray items _ =>
      let elements :=
        (fix elements (xs : list JsValue) : list jsstring :=
           match xs with
           | [] => []
           | x :: rest =>
               match stringify x with
               | Some t => t
               | None => js "null"
               end :: elements rest
           end) items in
      Some (js "[" ++ join_comma elements ++ js "]")
  | JNumber NaN | JNumber (Infinity _) => Some (js "null")
  | JNumber (Integer negative magnitude _) => Some (number_text negative magnitude)
  | JGuarded _ _ props =>
      let members :=
        (fix members (ps : list (jsstring * JsValue)) : list jsstring :=
           match ps with
           | [] => []
           | (k, x) :: rest =>
               match stringify x with
               | Some t => (quote k ++ js ":" ++ t) :: members rest
               | None => members rest
               end
           end) props in
      Some (js "{" ++ join_comma members ++ js "}")
  end.

(** *** [JSON.parse]

    The JSON grammar without number literals (no number occurs in the
    documents exchanged here).  The recursion on nested values is bounded
    by [fuel]; [parse] supplies more than the input can consume. *)

Definition is_ws (c : char16) : bool :=
  char16_eqb c (of_ascii " ") || char16_eqb c (of_ascii "009")
  || char16_eqb c (of_ascii "010") || char16_eqb c (of_ascii "013").

Fixpoint skip_ws (s : jsstring) : jsstring :=
  match s with
  | c :: rest => if is_ws c then skip_ws rest else s
  | [] => []
  end.

Definition hex_value (a : ascii) : option (bool * bool * bool * bool) :=
  match Base64.index_of a (str "0123456789abcdef") with
  | Some n => Some (Nat.testbit n 3, Nat.testbit n 2, Nat.testbit n 1, Nat.testbit n 0)
  | None =>
      match Base64.index_of a (str "ABCDEF") with
      | Some n => Some (Nat.testbit (n + 10) 3, Nat.testbit (n + 10) 2,
                        Nat.testbit (n + 10) 1, Nat.testbit (n + 10) 0)
      | None => None
      end
  end.

Definition hex_of_char (c : char16) : option (bool * bool * bool * bool) :=
  match c with
  | C16 (Ascii false false false false false false false false) a => hex_value a
  | _ => None
  end.

Definition hex4 (c1 c2 c3 c4 : char16) : option char16 :=
  match hex_of_char c1, hex_of_char c2, hex_of_char c3, hex_of_char c4 with
  | Some (h7, h6, h5, h4), Some (h3, h2, h1, h0),
    Some (l7, l6, l5, l4), Some (l3, l2, l1, l0) =>
      Some (C16 (Ascii h0 h1 h2 h3 h4 h5 h6 h7) (Ascii l0 l1 l2 l3 l4 l5 l6 l7))
  | _, _, _, _ => None
  end.

Definition simple_escape (e : char16) : option char16 :=
  if char16_eqb e dquote then Some dquote
  else if char16_eqb e backslash then Some backslash
  else if char16_eqb e (of_ascii "/") then Some (of_ascii "/")
  else if char16_eqb e (of_ascii "b") then Some (of_ascii "008")
  else if char16_eqb e (of_ascii "f") then Some (of_ascii "012")
  else if char16_eqb e (of_ascii "n") then Some (of_ascii "010")
  else if char16_eqb e (of_ascii "r") then Some (of_ascii "013")
  else if char16_eqb e (of_ascii "t") then Some (of_ascii "009")
  else None.

Definition cons_fst (c : char16) (r : option (jsstring * jsstring))
  : option (jsstring * jsstring) :=
  match r with
  | Some (t, rest) => Some (c :: t, rest)
  | None => None
  end.

(** The characters of a string literal after its opening quote, and the
    input left after the closing quote. *)
Fixpoint parse_string_body (s : jsstring) : option (jsstring * jsstring) :=
  match s with
  | [] => None
  | c :: rest =>
      if char16_eqb c dquote then Some ([], rest)
      else if char16_eqb c backslash then
        match rest with
        | e :: rest1 =>
            if char16_eqb e (of_ascii "u") then
              match rest1 with
              | h1 :: h2 :: h3 :: h4 :: rest2 =>
                  match hex4 h1 h2 h3 h4 with
                  | Some u => cons_fst u (parse_string_body rest2)
                  | None => None
                  end
              | _ => None
              end
            else
              match simple_escape e with
              | Some u => cons_fst u (parse_string_body rest1)
              | None => None
              end
        | [] => None
        end
      else if is_control c then None
      else cons_fst c (parse_string_body rest)
  end.

Fixpoint strip_prefix (pre s : jsstring) : option jsstring :=
  match pre, s with
  | [], _ => Some s
  | p :: pre', c :: s' => if char16_eqb p c then strip_prefix pre' s' else None
  | _ :: _, [] => None
  end.

Fixpoint parse_value (fuel : nat) (s : jsstring) {struct fuel}
  : option (JsValue * jsstring) :=
  match fuel with
  | 0 => None
  | S fuel' =>
      match skip_ws s with
      | [] => None
      | c :: rest =>
          if char16_eqb c dquote then
            match parse_string_body rest with
            | Some (t, rest') => Some (JString t, rest')
            | None => None
            end
          else if char16_eqb c (of_ascii "{") then
            match skip_ws rest with
            | c' :: rest' =>
                if char16_eqb c' (of_ascii "}") then Some (JObject [], rest')
                else parse_members fuel' [] (c' :: rest')
            | [] => None
            end
          else if char16_eqb c (of_ascii "[") then
            match skip_ws rest with
            | c' :: rest' =>
                if char16_eqb c' (of_ascii "]") then Some (JArray [] [], rest')
                else parse_elements fuel' [] (c' :: rest')
            | [] => None
            end
          else
            match strip_prefix (js "true") (c :: rest),
                  strip_prefix (js "false") (c :: rest),
                  strip_prefix (js "null") (c :: rest) with
            | Some r, _, _ => Some (JBool true, r)
            | None, Some r, _ => Some (JBool false, r)
            | None, None, Some r => Some (JNull, r)
            | None, None, None => None
            end
      end
  end

with parse_members (fuel : nat) (acc : list (jsstring * JsValue)) (s : jsstring)
       {struct fuel} : option (JsValue * jsstring) :=
  match fuel with
  | 0 => None
  | S fuel' =>
      match skip_ws s with
      | c :: rest =>
          if char16_eqb c dquote then
            match parse_string_body rest with
            | Some (k, rest1) =>
                match skip_ws rest1 with
                | c1 :: rest2 =>
                    if char16_eqb c1 (of_ascii ":") then
                      match parse_value fuel' rest2 with
                      | Some (v, rest3) =>
                          match skip_ws rest3 with
                          | c3 :: rest4 =>
                              if char16_eqb c3 (of_ascii ",")
                              then parse_members fuel' (obj_set acc k v) rest4
                              else if char16_eqb c3 (of_ascii "}")
                              then Some (JObject (obj_set acc k v), rest4)
                              else None
                          | [] => None
                          end
                      | None => None
                      end
                    else None
                | [] => None
                end
            | None => None
            end
          else None
      | [] => None
      end
  end

with parse_elements (fuel : nat) (acc : list JsValue) (s : jsstring)
       {struct fuel} : option (JsValue * jsstring) :=
  match fuel with
  | 0 => None
  | S fuel' =>
      match parse_value fuel' s with
      | Some (v, rest) =>
          match skip_ws rest with
          | c :: rest' =>
              if char16_eqb c (of_ascii ",")
              then parse_elements fuel' (acc ++ [v]) rest'
              else if char16_eqb c (of_ascii "]")
              then Some (JArray (acc ++ [v]) [], rest')
              else None
          | [] => None
          end
      | None => None
      end
  end.

Definition parse (s : jsstring) : option JsValue :=
  match parse_value (S (length s)) s with
  | Some (v, rest) =>
      match skip_ws rest with
      | [] => Some v
      | _ :: _ => None
      end
  | None => None
  end.

End Json.

(* ------------------------------------------------------------------ *)
(** ** AES-256 (FIPS 197)

    The block cipher behind [enc: A256GCM].  The state is the sixteen
    bytes of a block in input order (column-major). *)

Module Aes256.

(** Multiplication by [x] in GF(2^8) modulo [x^8 + x^4 + x^3 + x + 1]. *)
Definition xtime (a : byte) : byte :=
  match a with
  | Ascii b0 b1 b2 b3 b4 b5 b6 b7 =>
      let s := Ascii false b0 b1 b2 b3 b4 b5 b6 in
      if b7 then xor_byte s "027" else s
  end.

Definition gmul (a b : byte) : byte :=
  match b with
  | Ascii b0 b1 b2 b3 b4 b5 b6 b7 =>
      let a1 := xtime a in let a2 := xtime a1 in let a3 := xtime a2 in
      let a4 := xtime a3 in let a5 := xtime a4 in let a6 := xtime a5 in
      let a7 := xtime a6 in
      let pick (b : bool) (x : byte) := if b then x else zero in
      fold_left xor_byte
        [pick b1 a1; pick b2 a2; pick b3 a3; pick b4 a4; pick b5 a5;
         pick b6 a6; pick b7 a7] (pick b0 a)
  end.

(** The inverse in GF(2^8) as the 254th power; the inverse of 0 is 0. *)
Definition ginv (a : byte) : byte :=
  let a2 := gmul a a in let a4 := gmul a2 a2 in let a8 := gmul a4 a4 in
  let a16 := gmul a8 a8 in let a32 := gmul a16 a16 in
  let a64 := gmul a32 a32 in let a128 := gmul a64 a64 in
  fold_left gmul [a64; a32; a16; a8; a4; a2] a128.

Definition affine (s : byte) : byte :=
  match s with
  | Ascii s0 s1 s2 s3 s4 s5 s6 s7 =>
      let x5 (a b c d e : bool) := xorb a (xorb b (xorb c (xorb d e))) in
      Ascii (negb (x5 s0 s4 s5 s6 s7)) (negb (x5 s1 s5 s6 s7 s0))
            (x5 s2 s6 s7 s0 s1) (x5 s3 s7 s0 s1 s2)
            (x5 s4 s0 s1 s2 s3) (negb (x5 s5 s1 s2 s3 s4))
            (negb (x5 s6 s2 s3 s4 s5)) (x5 s7 s3 s4 s5 s6)
  end.

Definition sbox_table : bytes :=
  Eval vm_compute in map (fun n => affine (ginv (ascii_of_nat n))) (seq 0 256).

Definition sub_byte (a : byte) : byte := nth (nat_of_ascii a) sbox_table zero.

Definition sub_bytes (st : bytes) : bytes := map sub_byte st.

(** Row [r] of the state is rotated left by [r] columns. *)
Definition shift_rows (st : bytes) : bytes :=
  map (fun i => nth (i mod 4 + 4 * ((i / 4 + i mod 4) mod 4)) st zero) (seq 0 16).

Definition mix_column (a0 a1 a2 a3 : byte) : bytes :=
  let m2 := xtime in
  let m3 x := xor_byte (xtime x) x in
  [fold_left xor_byte [m3 a1; a2; a3] (m2 a0);
   fold_left xor_byte [m2 a1; m3 a2; a3] a0;
   fold_left xor_byte [a1; m2 a2; m3 a3] a0;
   fold_left xor_byte [a1; a2; m2 a3] (m3 a0)].

Definition mix_columns (st : bytes) : bytes :=
  flat_map (fun c => mix_column (nth (4 * c) st zero) (nth (4 * c + 1) st zero)
                                (nth (4 * c + 2) st zero) (nth (4 * c + 3) st zero))
           (seq 0 4).

Definition add_round_key (st rk : bytes) : bytes :=
  map (fun i => xor_byte (nth i st zero) (nth i rk zero)) (seq 0 16).

(** *** Key expansion for [Nk = 8], [Nr = 14] *)

Definition word := (list ascii).

Definition rot_word (w : word) : word :=
  match w with
  | a :: rest => rest ++ [a]
  | [] => []
  end.

Definition rcon (j : nat) : word :=
  [Nat.iter (j - 1) xtime "001"%char; zero; zero; zero].

Fixpoint words_of (bs : bytes) (n : nat) : list word :=
  match n with
  | 0 => []
  | S n' => firstn 4 bs :: words_of (skipn 4 bs) n'
  end.

Fixpoint expand (steps i : nat) (ws : list word) : list word :=
  match steps with
  | 0 => ws
  | S k =>
      let temp := nth (i - 1) ws [] in
      let temp' :=
        if i mod 8 =? 0 then xor_bytes (sub_bytes (rot_word temp)) (rcon (i / 8))
        else if i mod 8 =? 4 then sub_bytes temp
        else temp in
      expand k (S i) (ws ++ [xor_bytes (nth (i - 8) ws []) temp'])
  end.

Definition key_schedule (key : bytes) : bytes :=
  concat (expand 52 8 (words_of key 8)).

Definition round_key (sched : bytes) (r : nat) : bytes :=
  firstn 16 (skipn (16 * r) sched).

Definition round (sched : bytes) (st : bytes) (r : nat) : bytes :=
  add_round_key (mix_columns (shift_rows (sub_bytes st))) (round_key sched r).

Definition encrypt_block (key block : bytes) : bytes :=
  let sched := key_schedule key in
  let st := add_round_key block (round_key sched 0) in
  let st := fold_left (round sched) (seq 1 13) st in
  add_round_key (shift_rows (sub_bytes st)) (round_key sched 14).

End Aes256.

(* ------------------------------------------------------------------ *)
(** ** Galois/Counter Mode (NIST SP 800-38D) with a 96-bit IV and a
       128-bit tag *)

Module Gcm.

Definition bits_of_byte (a : byte) : list bool :=
  match a with
  | Ascii b0 b1 b2 b3 b4 b5 b6 b7 => [b7; b6; b5; b4; b3; b2; b1; b0]
  end.

Definition bits_of_bytes (bs : bytes) : list bool := flat_map bits_of_byte bs.

Fixpoint bytes_of_bits (n : nat) (bits : list bool) : bytes :=
  match n with
  | 0 => []
  | S n' =>
      let b i := nth i bits false in
      Ascii (b 7) (b 6) (b 5) (b 4) (b 3) (b 2) (b 1) (b 0)
      :: bytes_of_bits n' (skipn 8 bits)
  end.

Fixpoint xor_bits (a b : list bool) : list bool :=
  match a, b with
  | x :: a', y :: b' => xorb x y :: xor_bits a' b'
  | _, _ => []
  end.

(** The reduction constant [R = 11100001 || 0^120]. *)
Definition R : list bool :=
  [true; true; true; false; false; false; false; true] ++ repeat false 120.

Definition shift_right (v : list bool) : list bool := false :: removelast v.

(** Multiplication in GF(2^128): blocks as 128 bits, leftmost first. *)
Fixpoint mul_loop (xs z v : list bool) : list bool :=
  match xs with
  | [] => z
  | x :: xs' =>
      let z' := if x then xor_bits z v else z in
      let v' := if last v false then xor_bits (shift_right v) R else shift_right v in
      mul_loop xs' z' v'
  end.

Definition gf128_mul (x y : list bool) : list bool :=
  mul_loop x (repeat false 128) y.

Fixpoint chunks (n : nat) (bs : bytes) : list bytes :=
  match n with
  | 0 => []
  | S n' => firstn 16 bs :: chunks n' (skipn 16 bs)
  end.

Definition block_count (len : nat) : nat := (len + 15) / 16.

(** Zero padding to a multiple of sixteen bytes. *)
Definition pad16 (bs : bytes) : bytes :=
  bs ++ repeat zero (16 * block_count (length bs) - length bs).

Definition be_bytes (width : nat) (n : N) : bytes :=
  map (fun i => ascii_of_N (N.shiftr n (8 * N.of_nat (width - 1 - i)) mod 256)%N)
      (seq 0 width).

Definition ghash (h : bytes) (data : bytes) : bytes :=
  let hb := bits_of_bytes h in
  bytes_of_bits 16
    (fold_left (fun y x => gf128_mul (xor_bits y (bits_of_bytes x)) hb)
               (chunks (length data / 16) data) (repeat false 128)).

Definition counter_block (iv : bytes) (n : N) : bytes := iv ++ be_bytes 4 n.

(** The key stream for [len] bytes: counter blocks 2, 3, ... *)
Definition key_stream (key iv : bytes) (len : nat) : bytes :=
  flat_map (fun i => Aes256.encrypt_block key (counter_block iv (N.of_nat (i + 2))))
           (seq 0 (block_count len)).

Definition tag_of (key iv aad ct : bytes) : bytes :=
  let h := Aes256.encrypt_block key (repeat zero 16) in
  let s := ghash h (pad16 aad ++ pad16 ct
                    ++ be_bytes 8 (8 * N.of_nat (length aad))
                    ++ be_bytes 8 (8 * N.of_nat (length ct))) in
  xor_bytes s (Aes256.encrypt_block key (counter_block iv 1)).

(** Authenticated encryption: ciphertext and tag. *)
Definition encrypt (key iv aad pt : bytes) : bytes * bytes :=
  let ct := xor_bytes pt (key_stream key iv (length pt)) in
  (ct, tag_of key iv aad ct).

(** Authenticated decryption: nothing is returned unless the tag
    matches. *)
Definition decrypt (key iv aad ct tag : bytes) : option bytes :=
  if bytes_eqb tag (tag_of key iv aad ct)
  then Some (xor_bytes ct (key_stream key iv (length ct)))
  else None.

End Gcm.

(* ------------------------------------------------------------------ *)
(** ** Results, errors and the effects of the extension host *)

Inductive Error :=
| TypeError (message : string)
| JWEInvalid (message : string)
| JWEDecryptionFailed
| CredentialsProviderError (message : jsstring).

Inductive result (A : Type) :=
| Ok (a : A)
| Err (e : Error).

Arguments Ok {A} a.
Arguments Err {A} e.

Definition is_ok {A} (r : result A) : bool :=
  match r with Ok _ => true | Err _ => false end.

(** A writable stream, by handle. *)
Definition Writable := nat.

Record ChildProcess := { pid : nat; stdin : Writable }.

(** The calls the extension makes on its collaborators, in program
    order. *)
Inductive Event :=
| EvSpawn (command : jsstring) (args : list jsstring) (child : ChildProcess)
| EvWrite (stream : Writable) (chunk : jsstring)
| EvCreateFileSystemWatcher (glob : jsstring)
| EvRegisterCommand (command : jsstring)
| EvRegisterInlineCompletion
| EvStart
| EvSendNotification (method : jsstring) (params : option Json.JsValue)
| EvInfo (message : jsstring).

(** The host: a source of random bytes with the number of bytes drawn so
    far, the next free handle, and the calls made so far (oldest first). *)
Record World := {
  entropy : nat -> byte;
  drawn : nat;
  next_handle : nat;
  trace : list Event;
}.

Definition M (A : Type) : Type := World -> result A * World.

Definition ret {A} (a : A) : M A := fun w => (Ok a, w).
Definition throw {A} (e : Error) : M A := fun w => (Err e, w).

Definition bind {A B} (m : M A) (k : A -> M B) : M B :=
  fun w =>
    match m w with
    | (Ok a, w') => k a w'
    | (Err e, w') => (Err e, w')
    end.

Declare Scope m_scope.
Delimit Scope m_scope with M.
Notation "x <- m ;; k" := (bind m (fun x => k))
  (at level 61, m at next level, right associativity) : m_scope.
Notation "m ;;; k" := (bind m (fun _ => k))
  (at level 61, right associativity) : m_scope.
Open Scope m_scope.

Definition lift {A} (r : result A) : M A := fun w => (r, w).

Definition emit (e : Event) : M unit :=
  fun w => (Ok tt, {| entropy := entropy w; drawn := drawn w;
                      next_handle := next_handle w; trace := trace w ++ [e] |}).

(** [crypto.randomBytes(n)] *)
Definition randomBytes (n : nat) : M bytes :=
  fun w => (Ok (map (entropy w) (seq (drawn w) n)),
            {| entropy := entropy w; drawn := drawn w + n;
               next_handle := next_handle w; trace := trace w |}).

(** [stream.write(chunk)] *)
Definition stream_write (stream : Writable) (chunk : jsstring) : M unit :=
  emit (EvWrite stream chunk).

(** [cp.spawn(command, args)] *)
Definition spawn (command : jsstring) (args : list jsstring) : M ChildProcess :=
  fun w =>
    let child := {| pid := next_handle w; stdin := S (next_handle w) |} in
    (Ok child, {| entropy := entropy w; drawn := drawn w;
                  next_handle := S (S (next_handle w));
                  trace := trace w ++ [EvSpawn command args child] |}).

(** The chunks written to [stream], in order, and the notifications
    sent. *)
Fixpoint written (stream : Writable) (t : list Event) : list jsstring :=
  match t with
  | [] => []
  | EvWrite s chunk :: t' =>
      if s =? stream then chunk :: written stream t' else written stream t'
  | _ :: t' => written stream t'
  end.

Fixpoint writes (t : list Event) : list (Writable * jsstring) :=
  match t with
  | [] => []
  | EvWrite s chunk :: t' => (s, chunk) :: writes t'
  | _ :: t' => writes t'
  end.

Fixpoint notifications (t : list Event) : list (jsstring * option Json.JsValue) :=
  match t with
  | [] => []
  | EvSendNotification m p :: t' => (m, p) :: notifications t'
  | _ :: t' => notifications t'
  end.

(* ------------------------------------------------------------------ *)
(** ** jose: JWE compact serialization *)

Module Jose.
Import Json.

Definition of_bytes (bs : bytes) : jsstring := map of_ascii bs.

(** The bytes of a string of Latin-1 characters. *)
Fixpoint to_bytes (s : jsstring) : option bytes :=
  match s with
  | [] => Some []
  | C16 (Ascii false false false false false false false false) lo :: rest =>
      option_map (cons lo) (to_bytes rest)
  | _ :: _ => None
  end.

Definition dot : char16 := of_ascii ".".

Fixpoint join_dot (parts : list jsstring) : jsstring :=
  match parts with
  | [] => []
  | [x] => x
  | x :: rest => x ++ dot :: join_dot rest
  end.

(** [s.split('.')] *)
Fixpoint split_dot (s : jsstring) : list jsstring :=
  match s with
  | [] => [[]]
  | c :: rest =>
      if char16_eqb c dot then [] :: split_dot rest
      else
        match split_dot rest with
        | seg :: segs => (c :: seg) :: segs
        | [] => [[c]]
        end
  end.

Definition is_string (v : JsValue) (s : string) : bool :=
  match v with
  | JString t => jsstring_eqb t (js s)
  | _ => false
  end.

(** [base64url(encoder.encode(JSON.stringify(header)))] *)
Definition protected_b64 (header : JsValue) : jsstring :=
  of_bytes (Base64.base64url_encode
              (Utf8.encode (match stringify header with Some t => t | None => [] end))).

Definition iv_length : nat := 12.
Definition cek_length : nat := 32.

(** The content encryption with a given IV: [alg: dir] takes the key as
    the content encryption key and leaves the encrypted-key segment
    empty; [enc: A256GCM] wants a 256-bit key; the additional
    authenticated data is the encoded protected header. *)
Definition encrypt_with_iv (header : list (jsstring * JsValue))
           (plaintext key iv : bytes) : result jsstring :=
  if negb (is_string (obj_get header (js "alg")) "dir") then
    Err (JWEInvalid "unsupported alg")
  else if negb (is_string (obj_get header (js "enc")) "A256GCM") then
    Err (JWEInvalid "unsupported enc")
  else if negb (length key =? cek_length) then
    Err (JWEInvalid "Invalid Content Encryption Key length")
  else
    let protected := protected_b64 (JObject header) in
    let '(ciphertext, tag) := Gcm.encrypt key iv (Utf8.encode protected) plaintext in
    Ok (join_dot [protected; [];
                  of_bytes (Base64.base64url_encode iv);
                  of_bytes (Base64.base64url_encode ciphertext);
                  of_bytes (Base64.base64url_encode tag)]).

(** [new CompactEncrypt(plaintext).setProtectedHeader(header).encrypt(key)]:
    a fresh random IV is drawn for every encryption. *)
Definition CompactEncrypt (plaintext : bytes) (header : list (jsstring * JsValue))
           (key : bytes) : M jsstring :=
  iv <- randomBytes iv_length ;;
  lift (encrypt_with_iv header plaintext key iv).

Definition decode_segment (seg : jsstring) : option bytes :=
  match to_bytes seg with
  | Some cs => Base64.base64url_decode cs
  | None => None
  end.

(** The protected header of a compact JWE, parsed. *)
Definition parse_protected (protected : jsstring) : option (list (jsstring * JsValue)) :=
  match decode_segment protected with
  | Some bs =>
      match Utf8.decode bs with
      | Some text =>
          match parse text with
          | Some (JObject header) => Some header
          | _ => None
          end
      | None => None
      end
  | None => None
  end.

(** [compactDecrypt(jwe, key)] for [alg: dir], [enc: A256GCM]: the
    plaintext, or an error when the envelope is malformed or the tag does
    not verify. *)
Definition compactDecrypt (jwe : jsstring) (key : bytes) : result bytes :=
  match split_dot jwe with
  | [protected; encrypted_key; iv; ciphertext; tag] =>
      match parse_protected protected with
      | Some header =>
          if negb (is_string (obj_get header (js "alg")) "dir") then
            Err (JWEInvalid "unsupported alg")
          else if negb (is_string (obj_get header (js "enc")) "A256GCM") then
            Err (JWEInvalid "unsupported enc")
          else if negb (length encrypted_key =? 0) then
            Err (JWEInvalid "Encountered unexpected JWE Encrypted Key")
          else if negb (length key =? cek_length) then
            Err (JWEInvalid "Invalid Content Encryption Key length")
          else
            match decode_segment iv, decode_segment ciphertext, decode_segment tag with
            | Some iv', Some ct, Some tag' =>
                if negb (length iv' =? iv_length) then
                  Err (JWEInvalid "Invalid Initialization Vector length")
                else
                  match Gcm.decrypt key iv' (Utf8.encode protected) ct tag' with
                  | Some pt => Ok pt
                  | None => Err JWEDecryptionFailed
                  end
            | _, _, _ => Err (JWEInvalid "Failed to base64url decode")
            end
      | None => Err (JWEInvalid "JWE Protected Header is invalid")
      end
  | _ => Err (JWEInvalid "Invalid Compact JWE")
  end.

End Jose.

(* ------------------------------------------------------------------ *)
(** ** @aws-sdk/types *)

Module AwsSdk.
Record AwsCredentialIdentity := {
  accessKeyId : jsstring;
  secretAccessKey : jsstring;
  sessionToken : option jsstring;
}.
End AwsSdk.

(* ------------------------------------------------------------------ *)
(** ** vscode-languageclient *)

(** [target[k] = v] in strict mode, for a key that is not an array
    index.  The assignment throws on [undefined] and [null], on a
    primitive value, on a property that rejects assignments, and when the
    property would have to be added to an object that is not extensible. *)
Definition set_property (target : Json.JsValue) (k : jsstring) (v : Json.JsValue)
  : result Json.JsValue :=
  match target with
  | Json.JObject props => Ok (Json.JObject (Json.obj_set props k v))
  | Json.JArray items props => Ok (Json.JArray items (Json.obj_set props k v))
  | Json.JGuarded extensible readonly props =>
      if existsb (Json.jsstring_eqb k) readonly then
        Err (TypeError "Cannot assign to read only property")
      else if Json.obj_has props k || extensible then
        Ok (Json.JGuarded extensible readonly (Json.obj_set props k v))
      else Err (TypeError "Cannot add property, object is not extensible")
  | Json.JUndefined | Json.JNull =>
      Err (TypeError "Cannot set properties of undefined or null")
  | Json.JBool _ | Json.JString _ | Json.JNumber _ =>
      Err (TypeError "Cannot create property on a primitive value")
  end.

Module LanguageClient.

Inductive TransportKind := stdio | ipc | pipe | socket.

Record NodeModule := {
  module : jsstring;
  transport : TransportKind;
  execArgv : list jsstring;
}.

(** [ServerOptions]: the static description of a Node module to run, or
    a function that yields an already spawned process. *)
Inductive ServerOptions :=
| StaticServer (run debug : NodeModule)
| ChildServer (child : ChildProcess).

Record DocumentFilter := { scheme : jsstring; language : jsstring }.

(** The fields of [LanguageClientOptions] the extension uses;
    [initializationOptions] has type [any] and is [JUndefined] when
    absent. *)
Record LanguageClientOptions := {
  documentSelector : list DocumentFilter;
  initializationOptions : Json.JsValue;
  fileEvents : option jsstring;
}.

Definition set_initializationOptions (o : LanguageClientOptions) (v : Json.JsValue)
  : LanguageClientOptions :=
  {| documentSelector := documentSelector o;
     initializationOptions := v;
     fileEvents := fileEvents o |}.

Record LanguageClient := {
  id : jsstring;
  name : jsstring;
  serverOptions : ServerOptions;
  clientOptions : LanguageClientOptions;
}.

Record NotificationType := { method : jsstring }.

(** [client.sendNotification(type, params)] *)
Definition sendNotification (client : LanguageClient) (type : NotificationType)
           (params : option Json.JsValue) : M unit :=
  emit (EvSendNotification (method type) params).

(** [client.info(message)] *)
Definition info (client : LanguageClient) (message : jsstring) : M unit :=
  emit (EvInfo message).

(** [client.start()] *)
Definition start (client : LanguageClient) : M unit := emit EvStart.

End LanguageClient.

(** vscode's [ExtensionContext], as far as the extension reads it. *)
Record ExtensionContext := { extensionPath : jsstring }.

(* ------------------------------------------------------------------ *)
(** ** credentialsActivation.ts *)

Module CredentialsActivation.
Import Json LanguageClient.

Record UpdateCredentialsRequest := { data : jsstring }.

(** The request as the object passed to [sendNotification]. *)
Definition request_value (r : UpdateCredentialsRequest) : JsValue :=
  JObject [(js "data", JString (data r))].

Record MethodNames := {
  iamCredentialsUpdate : jsstring;
  iamCredentialsDelete : jsstring;
}.

Definition lspMethodNames : MethodNames := {|
  iamCredentialsUpdate := js "$/aws/credentials/iam/update";
  iamCredentialsDelete := js "$/aws/credentials/iam/delete";
|}.

Record NotificationTypes := {
  updateIamCredentials : NotificationType;
  deleteIamCredentials : NotificationType;
}.

Definition notificationTypes : NotificationTypes := {|
  updateIamCredentials := {| method := iamCredentialsUpdate lspMethodNames |};
  deleteIamCredentials := {| method := iamCredentialsDelete lspMethodNames |};
|}.

Definition opt_string (o : option jsstring) : JsValue :=
  match o with
  | Some t => JString t
  | None => JUndefined
  end.

(** [JSON.stringify(v)] as passed on to a function that takes a
    string. *)
Definition JSON_stringify (v : JsValue) : jsstring :=
  match stringify v with
  | Some t => t
  | None => []
  end.

(** [configureCredentialsCapabilities(clientOptions)]: the options
    after the call. *)
Definition configureCredentialsCapabilities (clientOptions : LanguageClientOptions)
  : result LanguageClientOptions :=
  let clientOptions :=
    if negb (truthy (initializationOptions clientOptions))
    then set_initializationOptions clientOptions (JObject [])
    else clientOptions in
  match set_property (initializationOptions clientOptions) (js "credentials")
                     (JObject [(js "providesIam", JBool true)]) with
  | Ok io => Ok (set_initializationOptions clientOptions io)
  | Err e => Err e
  end.

Section WithKey.

(** [const encryptionKey = crypto.randomBytes(32)], evaluated once when
    the module is loaded (see [load]). *)
Variable encryptionKey : bytes.

(** The external collaborators: [window.showInputBox] (the user's
    answer to a prompt, if any) and [fromIni] of
    @aws-sdk/credential-providers. *)
Variable showInputBox : jsstring -> option jsstring.
Variable fromIni : option jsstring -> result AwsSdk.AwsCredentialIdentity.

(** The [request] object of [writeEncryptionInit]. *)
Definition init_request : JsValue :=
  JObject [(js "version", JString (js "1.0"));
           (js "mode", JString (js "JWT"));
           (js "key", JString (Jose.of_bytes (Base64.toString_base64 encryptionKey)))].

(** [writeEncryptionInit(stream)]: the JSON text of the request, then a
    newline, in two writes. *)
Definition writeEncryptionInit (stream : Writable) : M unit :=
  stream_write stream (JSON_stringify init_request) ;;;
  stream_write stream [of_ascii "010"].

(** The object literal [requestData]: the property [sessionToken] is
    always there, with value [undefined] when the credentials have no
    session token. *)
Definition requestData (awsCredentials : AwsSdk.AwsCredentialIdentity) : JsValue :=
  JObject [(js "accessKeyId", JString (AwsSdk.accessKeyId awsCredentials));
           (js "secretAccessKey", JString (AwsSdk.secretAccessKey awsCredentials));
           (js "sessionToken", opt_string (AwsSdk.sessionToken awsCredentials))].

(** The plaintext: [new TextEncoder().encode(JSON.stringify({ data: requestData }))]. *)
Definition payload (awsCredentials : AwsSdk.AwsCredentialIdentity) : bytes :=
  Utf8.encode (JSON_stringify (JObject [(js "data", requestData awsCredentials)])).

Definition protectedHeader : list (jsstring * JsValue) :=
  [(js "alg", JString (js "dir")); (js "enc", JString (js "A256GCM"))].

(** [createUpdateIamCredentialsRequest(awsCredentials)]: the plaintext
    is encrypted under the module's key; the request carries the compact
    JWE. *)
Definition createUpdateIamCredentialsRequest
           (awsCredentials : AwsSdk.AwsCredentialIdentity)
  : M UpdateCredentialsRequest :=
  jwt <- Jose.CompactEncrypt (payload awsCredentials) protectedHeader encryptionKey ;;
  ret {| data := jwt |}.

Definition sendIamCredentialsUpdate (request : UpdateCredentialsRequest)
           (languageClient : LanguageClient) : M unit :=
  sendNotification languageClient (updateIamCredentials notificationTypes)
                   (Some (request_value request)).

Definition selectProfile_prompt : jsstring :=
  js "Which credentials profile should the language server use?".

(** The body of the command [awslsp.selectProfile]: a rejected
    [fromIni] or a failed encryption ends the command there. *)
Definition createSelectProfileCommand (languageClient : LanguageClient) : M unit :=
  let profileName := showInputBox selectProfile_prompt in
  awsCredentials <- lift (fromIni profileName) ;;
  request <- createUpdateIamCredentialsRequest awsCredentials ;;
  sendIamCredentialsUpdate request languageClient ;;;
  info languageClient
       (js "Client: The language server is now using credentials profile: "
        ++ match profileName with Some p => p | None => js "undefined" end).

(** The body of the command [awslsp.clearProfile]. *)
Definition createClearProfileCommand (languageClient : LanguageClient) : M unit :=
  sendNotification languageClient (deleteIamCredentials notificationTypes) None.

(** The two commands are registered, in this order. *)
Definition registerIamCredentialsProviderSupport (languageClient : LanguageClient)
           (extensionContext : ExtensionContext) : M unit :=
  emit (EvRegisterCommand (js "awslsp.selectProfile")) ;;;
  emit (EvRegisterCommand (js "awslsp.clearProfile")).

End WithKey.

(** Loading the module draws the key. *)
Definition load : M bytes := randomBytes 32.

End CredentialsActivation.

(* ------------------------------------------------------------------ *)
(** ** The launch: [activateDocumentsLanguageServer] *)

Module Extension.
Import Json LanguageClient CredentialsActivation.

Section Launch.

(** [process.env] and Node's [path.join]. *)
Variable env : string -> option jsstring.
Variable path_join : jsstring -> jsstring -> jsstring.

Variable encryptionKey : bytes.

(** [process.env.NAME === 'true'] *)
Definition env_is_true (name : string) : bool :=
  match env name with
  | Some v => jsstring_eqb v (js "true")
  | None => false
  end.

Definition enableInlineCompletion : bool := env_is_true "ENABLE_INLINE_COMPLETION".
Definition enableIamProvider : bool := env_is_true "ENABLE_IAM_PROVIDER".
Definition enableBearerTokenProvider : bool := env_is_true "ENABLE_TOKEN_PROVIDER".
Definition enableEncryptionInit : bool :=
  enableIamProvider || enableBearerTokenProvider.

Definition debug_execArgv : list jsstring :=
  [js "--nolazy"; js "--inspect=6012"; js "--preserve-symlinks"].

Definition watched_files : jsstring := js "**/*.{json,yml,yaml,ts}".

Definition createFileSystemWatcher (glob : jsstring) : M jsstring :=
  emit (EvCreateFileSystemWatcher glob) ;;; ret glob.

Definition registerInlineCompletion (client : LanguageClient) : M unit :=
  emit EvRegisterInlineCompletion.

Definition document_selector : list DocumentFilter :=
  [{| scheme := js "file"; language := js "yaml" |};
   {| scheme := js "untitled"; language := js "yaml" |};
   {| scheme := js "file"; language := js "json" |};
   {| scheme := js "untitled"; language := js "json" |};
   {| scheme := js "file"; language := js "typescript" |};
   {| scheme := js "untitled"; language := js "typescript" |}].

(** [activateDocumentsLanguageServer(extensionContext)].  When
    encryption is required the worker is spawned with [--stdio] and
    [--pre-init-encryption] added to the arguments and the key is handed
    over on its stdin; the server options then are the function that
    returns this process. *)
Definition activateDocumentsLanguageServer (extensionContext : ExtensionContext)
  : M LanguageClient :=
  let fallbackPath :=
    path_join (extensionPath extensionContext) (js "../../../out/src/server/server.js") in
  let serverModule :=
    match env "LSP_SERVER" with Some p => p | None => fallbackPath end in
  serverOptions <-
    (if enableEncryptionInit then
       child <- spawn (js "node")
                      (serverModule :: debug_execArgv
                         ++ [js "--stdio"; js "--pre-init-encryption"]) ;;
       writeEncryptionInit encryptionKey (stdin child) ;;;
       ret (ChildServer child)
     else
       ret (StaticServer
              {| module := serverModule; transport := ipc; execArgv := debug_execArgv |}
              {| module := serverModule; transport := ipc; execArgv := debug_execArgv |})) ;;
  watcher <- createFileSystemWatcher watched_files ;;
  let clientOptions :=
    {| documentSelector := document_selector;
       initializationOptions := JObject [];
       fileEvents := Some watcher |} in
  clientOptions <-
    (if enableIamProvider
     then lift (configureCredentialsCapabilities clientOptions)
     else ret clientOptions) ;;
  let client :=
    {| id := js "awsDocuments"; name := js "AWS Documents Language Server";
       serverOptions := serverOptions; clientOptions := clientOptions |} in
  (if enableIamProvider
   then registerIamCredentialsProviderSupport client extensionContext
   else ret tt) ;;;
  (if enableInlineCompletion then registerInlineCompletion client else ret tt) ;;;
  start client ;;;
  ret client.

End Launch.

(** One run of the extension host: the module is loaded, then the
    extension is activated. *)
Definition launch (env : string -> option jsstring)
           (path_join : jsstring -> jsstring -> jsstring)
           (extensionContext : ExtensionContext) : M (bytes * LanguageClient) :=
  key <- CredentialsActivation.load ;;
  client <- activateDocumentsLanguageServer env path_join key extensionContext ;;
  ret (key, client).

End Extension.

(* ------------------------------------------------------------------ *)
(** ** The worker's side *)

Module Worker.
Import Json.

Definition credentials_of (v : JsValue) : option AwsSdk.AwsCredentialIdentity :=
  match v with
  | JObject props =>
      match obj_get props (js "data") with
      | JObject d =>
          match obj_get d (js "accessKeyId"), obj_get d (js "secretAccessKey"),
                obj_get d (js "sessionToken") with
          | JString a, JString s, JString t =>
              Some {| AwsSdk.accessKeyId := a; AwsSdk.secretAccessKey := s;
                      AwsSdk.sessionToken := Some t |}
          | JString a, JString s, JUndefined =>
              Some {| AwsSdk.accessKeyId := a; AwsSdk.secretAccessKey := s;
                      AwsSdk.sessionToken := None |}
          | _, _, _ => None
          end
      | _ => None
      end
  | _ => None
  end.

(** Modelled from the spec: the worker's [decrypt] (the server package is
    not among the sources).  Section 4.3: the envelope carries an
    algorithm header, the IV, the ciphertext and an integrity tag, the key
    is used directly as the content-encryption key, and decryption fails
    rather than returning a value when the tag does not verify.  The
    plaintext is the serialized payload, which is decoded and parsed
    back into the credential triple. *)
Definition decrypt (envelope : jsstring) (key : bytes)
  : option AwsSdk.AwsCredentialIdentity :=
  match Jose.compactDecrypt envelope key with
  | Ok plaintext =>
      match Utf8.decode plaintext with
      | Some text =>
          match parse text with
          | Some v => credentials_of v
          | None => None
          end
      | None => None
      end
  | Err _ => None
  end.

End Worker.

(* ------------------------------------------------------------------ *)
(** ** Vocabulary of the statements *)

(** The JSON text of a member whose value is a string, and of an object
    whose members all are. *)
Definition member_text (kv : jsstring * jsstring) : jsstring :=
  Json.quote (fst kv) ++ js ":" ++ Json.quote (snd kv).

Definition object_text (kvs : list (jsstring * jsstring)) : jsstring :=
  js "{" ++ Json.join_comma (map member_text kvs) ++ js "}".

Definition string_object (kvs : list (jsstring * jsstring)) : Json.JsValue :=
  Json.JObject (map (fun kv => (fst kv, Json.JString (snd kv))) kvs).

(** What [JSON.parse] builds from the members [kvs], read left to right
    into [acc]. *)
Definition set_all (acc : list (jsstring * Json.JsValue)) (kvs : list (jsstring * jsstring))
  : list (jsstring * Json.JsValue) :=
  fold_left (fun a kv => Json.obj_set a (fst kv) (Json.JString (snd kv))) kvs acc.

(** No segment separator occurs in [s]. *)
Definition no_dot (s : jsstring) : Prop :=
  Forall (fun c => char16_eqb c Jose.dot = false) s.

(** The members of the credential object as [JSON.stringify] writes
    them: an absent session token leaves no member. *)
Definition credential_members (c : AwsSdk.AwsCredentialIdentity)
  : list (jsstring * jsstring) :=
  [(js "accessKeyId", AwsSdk.accessKeyId c);
   (js "secretAccessKey", AwsSdk.secretAccessKey c)]
  ++ match AwsSdk.sessionToken c with
     | Some t => [(js "sessionToken", t)]
     | None => []
     end.

(** The text of [{ data: inner }]. *)
Definition data_wrapper_text (inner : jsstring) : jsstring :=
  js "{" ++ Json.quote (js "data") ++ js ":" ++ inner ++ js "}".

(** Not the base64 padding character. *)
Definition not_pad (c : byte) : Prop := c <> Base64.pad_char.

(** A string between double quotes, nothing escaped. *)
Definition quoted (s : jsstring) : jsstring := Json.dquote :: s ++ [Json.dquote].

(** The InitMessage for [key] as it appears on the wire. *)
Definition init_message_text (key : bytes) : jsstring :=
  js "{" ++ quoted (js "version") ++ js ":" ++ quoted (js "1.0")
  ++ js "," ++ quoted (js "mode") ++ js ":" ++ quoted (js "JWT")
  ++ js "," ++ quoted (js "key") ++ js ":"
  ++ quoted (Jose.of_bytes (Base64.toString_base64 key)) ++ js "}".

Definition newline : jsstring := [of_ascii "010"].

(** The world [w] after the calls [events]. *)
Definition after_events (w : World) (events : list Event) : World :=
  {| entropy := entropy w; drawn := drawn w; next_handle := next_handle w;
     trace := trace w ++ events |}.

(** The next [n] bytes of the random source. *)
Definition next_random (w : World) (n : nat) : bytes :=
  map (entropy w) (seq (drawn w) n).

Definition draw (w : World) (n : nat) : World :=
  {| entropy := entropy w; drawn := drawn w + n; next_handle := next_handle w;
     trace := trace w |}.

(** The five segments of the envelope of [plaintext] under [key] and
    [iv]: protected header, encrypted key (empty), IV, ciphertext, tag. *)
Definition segments (plaintext key iv : bytes) : list jsstring :=
  let protected := Jose.protected_b64 (Json.JObject CredentialsActivation.protectedHeader) in
  let ct_tag := Gcm.encrypt key iv (Utf8.encode protected) plaintext in
  [protected; [];
   Jose.of_bytes (Base64.base64url_encode iv);
   Jose.of_bytes (Base64.base64url_encode (fst ct_tag));
   Jose.of_bytes (Base64.base64url_encode (snd ct_tag))].

(** The message logged after a profile has been sent. *)
Definition profile_message (profileName : option jsstring) : jsstring :=
  js "Client: The language server is now using credentials profile: "
  ++ match profileName with Some p => p | None => js "undefined" end.

(** The module the worker runs: [process.env.LSP_SERVER ?? fallbackPath]. *)
Definition server_module (env : string -> option jsstring)
           (path_join : jsstring -> jsstring -> jsstring)
           (extensionContext : ExtensionContext) : jsstring :=
  match env "LSP_SERVER"%string with
  | Some p => p
  | None => path_join (extensionPath extensionContext)
                      (js "../../../out/src/server/server.js")
  end.

(** The process spawned in a world: it takes the next two handles. *)
Definition next_child (w : World) : ChildProcess :=
  {| pid := next_handle w; stdin := S (next_handle w) |}.

Definition spawn_args (serverModule : jsstring) : list jsstring :=
  [serverModule; js "--nolazy"; js "--inspect=6012"; js "--preserve-symlinks";
   js "--stdio"; js "--pre-init-encryption"].

(** The calls of the key handoff, and the calls that follow it up to the
    start of the client. *)
Definition handoff_events (key : bytes) (serverModule : jsstring) (child : ChildProcess)
  : list Event :=
  [EvSpawn (js "node") (spawn_args serverModule) child;
   EvWrite (stdin child) (CredentialsActivation.JSON_stringify
                            (CredentialsActivation.init_request key));
   EvWrite (stdin child) newline].

Definition setup_events (env : string -> option jsstring) : list Event :=
  [EvCreateFileSystemWatcher Extension.watched_files]
  ++ (if Extension.enableIamProvider env
      then [EvRegisterCommand (js "awslsp.selectProfile");
            EvRegisterCommand (js "awslsp.clearProfile")]
      else [])
  ++ (if Extension.enableInlineCompletion env then [EvRegisterInlineCompletion] else []).

Definition is_start (e : Event) : bool :=
  match e with
  | EvStart => true
  | _ => false
  end.

(** [{ providesIam: true }] *)
Definition credentials_capability : Json.JsValue :=
  Json.JObject [(js "providesIam", Json.JBool true)].

(** The implementation the specification's words describe, for
    comparison with the one of the source: the object is created only when
    the field is absent. *)
Definition configure_as_specified (o : LanguageClient.LanguageClientOptions)
  : result LanguageClient.LanguageClientOptions :=
  let o1 :=
    match LanguageClient.initializationOptions o with
    | Json.JUndefined => LanguageClient.set_initializationOptions o (Json.JObject [])
    | _ => o
    end in
  match set_property (LanguageClient.initializationOptions o1) (js "credentials")
                     credentials_capability with
  | Ok io => Ok (LanguageClient.set_initializationOptions o1 io)
  | Err e => Err e
  end.

(** The frame property as the specification words it, of an
    implementation [f] at one input: whenever the call returns,
    [initializationOptions] is the value it was, or a fresh object if there
    was none, with [credentials] set, and the other fields are
    unchanged. *)
Definition configure_frame_as_stated
           (f : LanguageClient.LanguageClientOptions
                -> result LanguageClient.LanguageClientOptions)
           (o : LanguageClient.LanguageClientOptions) : Prop :=
  forall o',
    f o = Ok o' ->
    set_property (match LanguageClient.initializationOptions o with
                  | Json.JUndefined => Json.JObject []
                  | v => v
                  end) (js "credentials") credentials_capability
    = Ok (LanguageClient.initializationOptions o')
    /\ LanguageClient.documentSelector o' = LanguageClient.documentSelector o
    /\ LanguageClient.fileEvents o' = LanguageClient.fileEvents o.


(** The named properties of an object, if the value is one. *)
Definition own_properties (v : Json.JsValue) : option (list (jsstring * Json.JsValue)) :=
  match v with
  | Json.JObject props | Json.JArray _ props | Json.JGuarded _ _ props => Some props
  | _ => None
  end.

Definition options_with (v : Json.JsValue) : LanguageClient.LanguageClientOptions :=
  {| LanguageClient.documentSelector := Extension.document_selector;
     LanguageClient.initializationOptions := v;
     LanguageClient.fileEvents := Some Extension.watched_files |}.

(** The client a launch returns. *)
Definition launched_client (env : string -> option jsstring)
           (path_join : jsstring -> jsstring -> jsstring)
           (extensionContext : ExtensionContext) (w : World)
  : LanguageClient.LanguageClient :=
  let node :=
    {| LanguageClient.module := server_module env path_join extensionContext;
       LanguageClient.transport := LanguageClient.ipc;
       LanguageClient.execArgv := Extension.debug_execArgv |} in
  {| LanguageClient.id := js "awsDocuments";
     LanguageClient.name := js "AWS Documents Language Server";
     LanguageClient.serverOptions :=
       if Extension.enableEncryptionInit env
       then LanguageClient.ChildServer (next_child w)
       else LanguageClient.StaticServer node node;
     LanguageClient.clientOptions :=
       options_with (if Extension.enableIamProvider env
                     then Json.JObject [(js "credentials", credentials_capability)]
                     else Json.JObject []) |}.

(** A character that [JSON.stringify] copies. *)
Definition copied (a : ascii) : Prop := Json.escape_char (of_ascii a) = [of_ascii a].

(** The members of the InitMessage. *)
Definition init_members (key : bytes) : list (jsstring * jsstring) :=
  [(js "version", js "1.0"); (js "mode", js "JWT");
   (js "key", Jose.of_bytes (Base64.toString_base64 key))].

(** Hexadecimal notation for the published test vectors. *)
Definition hex (bs : bytes) : string :=
  string_of_list_ascii
    (flat_map (fun a => match a with
                        | Ascii b0 b1 b2 b3 b4 b5 b6 b7 =>
                            [Json.hex_digit b7 b6 b5 b4; Json.hex_digit b3 b2 b1 b0]
                        end) bs).

Fixpoint bytes_of_hex_digits (cs : list ascii) : bytes :=
  match cs with
  | a :: b :: rest =>
      match Json.hex_value a, Json.hex_value b with
      | Some (h3, h2, h1, h0), Some (l3, l2, l1, l0) =>
          Ascii l0 l1 l2 l3 h0 h1 h2 h3 :: bytes_of_hex_digits rest
      | _, _ => []
      end
  | _ => []
  end.

Definition unhex (s : string) : bytes := bytes_of_hex_digits (list_ascii_of_string s).

(** The commands registered by the calls [t], in order. *)
Fixpoint registered (t : list Event) : list jsstring :=
  match t with
  | [] => []
  | EvRegisterCommand c :: t' => c :: registered t'
  | _ :: t' => registered t'
  end.

(** Reading a stream up to its first newline: the line, and what
    follows the newline. *)
Fixpoint read_line (s : jsstring) : jsstring * jsstring :=
  match s with
  | [] => ([], [])
  | c :: rest =>
      if char16_eqb c (of_ascii "010") then ([], rest)
      else let (line, after) := read_line rest in (c :: line, after)
  end.

(** A code unit that [JSON.stringify] copies: no surrogate, nothing to
    escape. *)
Definition copied16 (c : char16) : Prop :=
  is_high_surrogate c = false /\ is_low_surrogate c = false
  /\ Json.escape_char c = [c].

(** Modelled from the spec: the key a reader of the InitMessage obtains
    (the worker's reading is not among the sources).  Section 6 gives the
    wire format, a JSON object whose [key] member is the base64 text of the
    key. *)
Definition read_init_key (message : jsstring) : option bytes :=
  match Json.parse message with
  | Some (Json.JObject props) =>
      match Json.obj_get props (js "key") with
      | Json.JString k =>
          match Jose.to_bytes k with
          | Some cs => Base64.from_base64 cs
          | None => None
          end
      | _ => None
      end
  | _ => None
  end.

(** Two updates for the same credentials, one after the other. *)
Definition update_twice (key : bytes) (c : AwsSdk.AwsCredentialIdentity)
  : M (CredentialsActivation.UpdateCredentialsRequest
       * CredentialsActivation.UpdateCredentialsRequest) :=
  r1 <- CredentialsActivation.createUpdateIamCredentialsRequest key c ;;
  r2 <- CredentialsActivation.createUpdateIamCredentialsRequest key c ;;
  ret (r1, r2).

(** An environment in which only the IAM provider is enabled. *)
Definition iam_env (name : string) : option jsstring :=
  if String.eqb name "ENABLE_IAM_PROVIDER" then Some (js "true") else None.

(** Not the newline character. *)
Definition not_newline (c : char16) : Prop := char16_eqb c (of_ascii "010") = false.

(** Sample inputs: the profile of the spec's scenario, a key and a
    host. *)
Definition sample_credentials : AwsSdk.AwsCredentialIdentity :=
  {| AwsSdk.accessKeyId := js "AKIAEXAMPLE";
     AwsSdk.secretAccessKey := js "secretvalue";
     AwsSdk.sessionToken := None |}.

Definition sample_key : bytes := map ascii_of_nat (seq 0 32).

Definition sample_world : World :=
  {| entropy := fun n => ascii_of_nat (7 * n + 3); drawn := 0;
     next_handle := 0; trace := [] |}.

Definition sample_client : LanguageClient.LanguageClient :=
  {| LanguageClient.id := js "awsDocuments";
     LanguageClient.name := js "AWS Documents Language Server";
     LanguageClient.serverOptions := LanguageClient.ChildServer {| pid := 0; stdin := 1 |};
     LanguageClient.clientOptions :=
       {| LanguageClient.documentSelector := [];
          LanguageClient.initializationOptions := Json.JObject [];
          LanguageClient.fileEvents := None |} |}.

(* ================================================================== *)
(** * Properties *)

(** ** Known answers

    The models of the platform functions reproduce the published
    examples: RFC 4648 section 10, FIPS 197 appendix C.3, and the AES-256
    test cases 13, 14 and 16 of the GCM specification. *)

Module KnownAnswers.

Example base64_rfc4648 :
  map Base64.toString_base64 [str ""; str "f"; str "fo"; str "foo"; str "foobar"]
  = [str ""; str "Zg=="; str "Zm8="; str "Zm9v"; str "Zm9vYmFy"].
Proof. reflexivity. Qed.

Example utf8_known :
  hex (Utf8.encode [C16 zero "233"; C16 " " "172"; C16 "216" "061"; C16 "222" "000"])
  = "c3a9e282acf09f9880"%string.
Proof. reflexivity. Qed.

Example aes256_fips197 :
  hex (Aes256.encrypt_block
         (unhex "000102030405060708090a0b0c0d0e0f101112131415161718191a1b1c1d1e1f")
         (unhex "00112233445566778899aabbccddeeff"))
  = "8ea2b7ca516745bfeafc49904b496089"%string.
Proof. vm_compute. reflexivity. Qed.

Example gcm_test_case_13 :
  Gcm.encrypt (repeat zero 32) (repeat zero 12) [] []
  = ([], unhex "530f8afbc74536b9a963b4f1c4cb738b").
Proof. vm_compute. reflexivity. Qed.

Example gcm_test_case_14 :
  Gcm.encrypt (repeat zero 32) (repeat zero 12) [] (repeat zero 16)
  = (unhex "cea7403d4d606b6e074ec5d3baf39d18",
     unhex "d0d1c8a799996bf0265b98b5d48ab919").
Proof. vm_compute. reflexivity. Qed.

Example gcm_test_case_16 :
  let (ct, tag) :=
    Gcm.encrypt
      (unhex "feffe9928665731c6d6a8f9467308308feffe9928665731c6d6a8f9467308308")
      (unhex "cafebabefacedbaddecaf888")
      (unhex "feedfacedeadbeeffeedfacedeadbeefabaddad2")
      (unhex ("d9313225f88406e5a55909c5aff5269a86a7a9531534f7da2e4c303d8a318a72"
              ++ "1c3c0c95956809532fcf0e2449a6b525b16aedf5aa0de657ba637b39")) in
  hex ct = ("522dc1f099567d07f47f37a32a84427d643a8cdcbfe5c0c97598a2bd2555d1aa"
            ++ "8cb08e48590dbb3da7b08b1056828838c5f61e6393ba7a0abcc9f662")%string
  /\ hex tag = "76fc6ece0f4e1768cddf8853bb2d551b"%string.
Proof. vm_compute. split; reflexivity. Qed.

(** The protected header of every envelope. *)
Example protected_header_text :
  Jose.protected_b64 (Json.JObject CredentialsActivation.protectedHeader)
  = js "eyJhbGciOiJkaXIiLCJlbmMiOiJBMjU2R0NNIn0".
Proof. vm_compute. reflexivity. Qed.

(** A sample envelope opens under its key and not under another one. *)
Example sample_envelope_keys :
  match CredentialsActivation.createUpdateIamCredentialsRequest
          sample_key sample_credentials sample_world with
  | (Ok request, _) =>
      Worker.decrypt (CredentialsActivation.data request) sample_key
      = Some sample_credentials
      /\ Jose.compactDecrypt (CredentialsActivation.data request) (repeat zero 32)
         = Err JWEDecryptionFailed
  | (Err _, _) => False
  end.
Proof. vm_compute. split; reflexivity. Qed.

End KnownAnswers.

(** ** Base64 round trip *)

Module Base64Facts.
Import Base64.

Lemma list_ind3 (A : Type) (P : list A -> Prop) :
  P [] -> (forall a, P [a]) -> (forall a b, P [a; b]) ->
  (forall a b c l, P l -> P (a :: b :: c :: l)) ->
  forall l, P l.
Proof.
  intros H0 H1 H2 H3.
  fix IH 1. intros [|a [|b [|c l]]];
    [exact H0 | apply H1 | apply H2 | apply H3, IH].
Qed.

Lemma sextet_std_roundtrip s :
  sextet_of_char std_alphabet (char_of_sextet std_alphabet s) = Some s.
Proof. destruct s as [[] [] [] [] [] []]; reflexivity. Qed.

Lemma sextet_url_roundtrip s :
  sextet_of_char url_alphabet (char_of_sextet url_alphabet s) = Some s.
Proof. destruct s as [[] [] [] [] [] []]; reflexivity. Qed.

Section Alphabet.
Variable alpha : bytes.
Hypothesis alpha_ok :
  forall s, sextet_of_char alpha (char_of_sextet alpha s) = Some s.

Lemma decode_unpadded_encode bs :
  decode_unpadded alpha (encode alpha false bs) = Some bs.
Proof.
  induction bs as [|a|a b|a b c l IH] using list_ind3.
  - reflexivity.
  - destruct a as [a0 a1 a2 a3 a4 a5 a6 a7]. cbn.
    rewrite !alpha_ok. reflexivity.
  - destruct a as [a0 a1 a2 a3 a4 a5 a6 a7], b as [b0 b1 b2 b3 b4 b5 b6 b7].
    cbn. rewrite !alpha_ok. reflexivity.
  - destruct a as [a0 a1 a2 a3 a4 a5 a6 a7], b as [b0 b1 b2 b3 b4 b5 b6 b7],
      c as [c0 c1 c2 c3 c4 c5 c6 c7].
    cbn [encode sextets3 decode_unpadded]. rewrite !alpha_ok, IH. reflexivity.
Qed.
End Alphabet.

Lemma base64url_roundtrip bs : base64url_decode (base64url_encode bs) = Some bs.
Proof. apply decode_unpadded_encode, sextet_url_roundtrip. Qed.

Lemma std_char_not_pad s : not_pad (char_of_sextet std_alphabet s).
Proof. destruct s as [[] [] [] [] [] []]; discriminate. Qed.

Lemma encode_std_not_pad bs : Forall not_pad (encode std_alphabet false bs).
Proof.
  induction bs as [|a|a b|a b c l IH] using list_ind3; cbn [encode].
  - constructor.
  - destruct (sextets1 a) as [s1 s2].
    repeat constructor; apply std_char_not_pad.
  - destruct (sextets2 a b) as [[s1 s2] s3].
    repeat constructor; apply std_char_not_pad.
  - destruct (sextets3 a b c) as [[[s1 s2] s3] s4].
    repeat (constructor; [apply std_char_not_pad|]). exact IH.
Qed.

Lemma encode_padded_split alpha bs :
  exists pad,
    encode alpha true bs = encode alpha false bs ++ pad
    /\ (pad = [] \/ pad = [pad_char] \/ pad = [pad_char; pad_char]).
Proof.
  induction bs as [|a|a b|a b c l IH] using list_ind3; cbn [encode].
  - exists []. auto.
  - destruct (sextets1 a) as [s1 s2]. exists [pad_char; pad_char]. auto.
  - destruct (sextets2 a b) as [[s1 s2] s3]. exists [pad_char]. auto.
  - destruct (sextets3 a b c) as [[[s1 s2] s3] s4].
    destruct IH as (pad & -> & Hpad). exists pad. auto.
Qed.

Lemma strip_padding_app u pad :
  Forall not_pad u ->
  pad = [] \/ pad = [pad_char] \/ pad = [pad_char; pad_char] ->
  strip_padding (u ++ pad) = u.
Proof.
  intros Hu Hpad. unfold strip_padding.
  assert (Hrev : Forall not_pad (rev u)) by now apply Forall_rev.
  destruct Hpad as [-> | [-> | ->]]; rewrite ?app_nil_r, ?rev_app_distr; cbn [rev app].
  - destruct (rev u) as [|p1 [|p2 r]] eqn:E.
    + apply (f_equal (@rev _)) in E. rewrite rev_involutive in E. now subst.
    + inversion_clear Hrev as [|? ? Hp1 _].
      apply Ascii.eqb_neq in Hp1. now rewrite Hp1.
    + inversion_clear Hrev as [|? ? Hp1 _].
      apply Ascii.eqb_neq in Hp1. now rewrite Hp1.
  - destruct (rev u) as [|p2 r] eqn:E.
    + apply (f_equal (@rev _)) in E. rewrite rev_involutive in E. now subst.
    + inversion_clear Hrev as [|? ? Hp2 _].
      apply Ascii.eqb_neq in Hp2. rewrite Hp2.
      change (rev r ++ [p2]) with (rev (p2 :: r)).
      rewrite <- E. apply rev_involutive.
  - apply rev_involutive.
Qed.

Lemma base64_roundtrip bs : from_base64 (toString_base64 bs) = Some bs.
Proof.
  unfold from_base64, toString_base64, decode.
  destruct (encode_padded_split std_alphabet bs) as (pad & -> & Hpad).
  rewrite strip_padding_app by (auto using encode_std_not_pad).
  apply decode_unpadded_encode, sextet_std_roundtrip.
Qed.

End Base64Facts.

(** ** UTF-8 round trip *)

Module Utf8Facts.
Import Utf8.

(** Induction that may step over one or two elements. *)
Lemma list_ind_pairs (A : Type) (P : list A -> Prop) :
  P [] ->
  (forall a l, P l -> (forall b l', l = b :: l' -> P l') -> P (a :: l)) ->
  forall l, P l.
Proof.
  intros H0 Hstep l.
  enough (H : P l /\ (forall b l', l = b :: l' -> P l')) by apply H.
  induction l as [|a l [IH1 IH2]].
  - split; [exact H0 | discriminate].
  - split.
    + apply Hstep; assumption.
    + intros b l' [= <- <-]. exact IH1.
Qed.

Lemma decode_bmp c bs :
  is_high_surrogate c = false -> is_low_surrogate c = false ->
  decode (encode_bmp c ++ bs) = option_map (cons c) (decode bs).
Proof.
  destruct c as [[h0 h1 h2 h3 h4 h5 h6 h7] [l0 l1 l2 l3 l4 l5 l6 l7]].
  destruct h0, h1, h2, h3, h4, h5, h6, h7, l7; intros Hh Hl;
    try discriminate Hh; try discriminate Hl; try reflexivity;
    destruct l3, l4, l5, l6; reflexivity.
Qed.

Lemma decode_pair c d bs :
  is_high_surrogate c = true -> is_low_surrogate d = true ->
  decode (encode_pair c d ++ bs) = option_map (fun r => c :: d :: r) (decode bs).
Proof.
  destruct c as [[w2 w3 c2 c3 c4 c5 c6 c7] [x0 x1 x2 x3 x4 x5 w0 w1]].
  destruct d as [[y8 y9 d2 d3 d4 d5 d6 d7] [y0 y1 y2 y3 y4 y5 y6 y7]].
  destruct c2, c3, c4, c5, c6, c7; intros Hc; try discriminate Hc.
  destruct d2, d3, d4, d5, d6, d7; intros Hd; try discriminate Hd.
  destruct w3, w2, w1, w0; reflexivity.
Qed.

Theorem decode_encode s :
  isWellFormed s = true -> decode (encode s) = Some s.
Proof.
  induction s as [|c rest IH1 IH2] using list_ind_pairs; [reflexivity|].
  cbn [isWellFormed encode].
  destruct (is_high_surrogate c) eqn:Hh.
  - destruct rest as [|d rest']; [discriminate|].
    destruct (is_low_surrogate d) eqn:Hl; [|discriminate].
    cbn [andb]. intros Hwf.
    rewrite decode_pair, (IH2 d rest') by auto. reflexivity.
  - destruct (is_low_surrogate c) eqn:Hl; [discriminate|].
    cbn [negb andb]. intros Hwf.
    rewrite decode_bmp, IH1 by auto. reflexivity.
Qed.

Lemma encode_ascii (bs : list ascii) :
  Forall (fun a => match a with Ascii _ _ _ _ _ _ _ b7 => b7 = false end) bs ->
  encode (map of_ascii bs) = bs.
Proof.
  induction 1 as [|a bs Ha _ IH]; [reflexivity|].
  destruct a as [b0 b1 b2 b3 b4 b5 b6 b7]. subst b7.
  cbn [map]. change (encode (of_ascii (Ascii b0 b1 b2 b3 b4 b5 b6 false) :: map of_ascii bs))
    with (Ascii b0 b1 b2 b3 b4 b5 b6 false :: encode (map of_ascii bs)).
  now rewrite IH.
Qed.
End Utf8Facts.

(** ** JSON string literals *)

Module JsonFacts.
Import Json Utf8Facts.

Lemma char16_eqb_eq c d : char16_eqb c d = true -> c = d.
Proof.
  destruct c as [h l], d as [h' l']. cbn.
  intros H. apply andb_true_iff in H. destruct H as [H1 H2].
  apply Ascii.eqb_eq in H1, H2. now subst.
Qed.

Lemma char16_eqb_refl c : char16_eqb c c = true.
Proof. destruct c as [h l]. cbn. now rewrite !Ascii.eqb_refl. Qed.

Lemma jsstring_eqb_refl s : jsstring_eqb s s = true.
Proof.
  unfold jsstring_eqb. rewrite Nat.eqb_refl. cbn [andb].
  induction s as [|c s IH]; [reflexivity|].
  cbn. now rewrite char16_eqb_refl, IH.
Qed.

(** *** String literals *)

Lemma parse_plain c tail :
  char16_eqb c dquote = false -> char16_eqb c backslash = false ->
  is_control c = false ->
  parse_string_body (c :: tail) = cons_fst c (parse_string_body tail).
Proof. intros H1 H2 H3. cbn [parse_string_body]. now rewrite H1, H2, H3. Qed.

Lemma high_surrogate_plain c :
  is_high_surrogate c = true ->
  char16_eqb c dquote = false /\ char16_eqb c backslash = false
  /\ is_control c = false.
Proof.
  destruct c as [[h0 h1 h2 h3 h4 h5 h6 h7] l].
  destruct h2, h3, h4, h5, h6, h7; intros H; try discriminate H.
  destruct h0, h1; auto.
Qed.

Lemma low_surrogate_plain c :
  is_low_surrogate c = true ->
  char16_eqb c dquote = false /\ char16_eqb c backslash = false
  /\ is_control c = false.
Proof.
  destruct c as [[h0 h1 h2 h3 h4 h5 h6 h7] l].
  destruct h2, h3, h4, h5, h6, h7; intros H; try discriminate H.
  destruct h0, h1; auto.
Qed.

Lemma hex_of_char_digit b3 b2 b1 b0 :
  hex_of_char (of_ascii (hex_digit b3 b2 b1 b0)) = Some (b3, b2, b1, b0).
Proof. destruct b3, b2, b1, b0; reflexivity. Qed.

Lemma parse_unicode_escape c tail :
  parse_string_body (unicode_escape c ++ tail)
  = cons_fst c (parse_string_body tail).
Proof.
  destruct c as [[h0 h1 h2 h3 h4 h5 h6 h7] [l0 l1 l2 l3 l4 l5 l6 l7]].
  unfold unicode_escape. cbn [map app].
  match goal with
  | |- parse_string_body (_ :: _ :: ?d1 :: ?d2 :: ?d3 :: ?d4 :: _) = _ =>
      change (match hex4 d1 d2 d3 d4 with
              | Some u => cons_fst u (parse_string_body tail)
              | None => None
              end = cons_fst (C16 (Ascii h0 h1 h2 h3 h4 h5 h6 h7)
                                  (Ascii l0 l1 l2 l3 l4 l5 l6 l7))
                             (parse_string_body tail))
  end.
  unfold hex4. now rewrite !hex_of_char_digit.
Qed.

Lemma parse_escape_char c tail :
  parse_string_body (escape_char c ++ tail)
  = cons_fst c (parse_string_body tail).
Proof.
  unfold escape_char.
  repeat match goal with
  | |- context [if char16_eqb c ?x then _ else _] =>
      let E := fresh "E" in
      destruct (char16_eqb c x) eqn:E;
      [apply char16_eqb_eq in E; subst c; reflexivity|]
  end.
  destruct (is_control c) eqn:Hc.
  - apply parse_unicode_escape.
  - cbn [app]. now apply parse_plain.
Qed.

Lemma parse_quote_body s rest :
  parse_string_body (quote_body s ++ dquote :: rest) = Some (s, rest).
Proof.
  induction s as [|c s IH1 IH2] using list_ind_pairs; [reflexivity|].
  cbn [quote_body].
  destruct (is_high_surrogate c) eqn:Hh.
  - destruct s as [|d s'].
    + now rewrite parse_unicode_escape.
    + destruct (is_low_surrogate d) eqn:Hl.
      * destruct (high_surrogate_plain c Hh) as (? & ? & ?).
        destruct (low_surrogate_plain d Hl) as (? & ? & ?).
        cbn [app]. rewrite !parse_plain by assumption.
        now rewrite (IH2 d s').
      * rewrite <- app_assoc, parse_unicode_escape, IH1. reflexivity.
  - destruct (is_low_surrogate c) eqn:Hl;
      rewrite <- app_assoc;
      [rewrite parse_unicode_escape | rewrite parse_escape_char];
      now rewrite IH1.
Qed.

(** *** Well-formedness of quoted text *)

Lemma wf_cons_ascii a t : isWellFormed (of_ascii a :: t) = isWellFormed t.
Proof. reflexivity. Qed.

Lemma wf_unicode_escape c t :
  isWellFormed (unicode_escape c ++ t) = isWellFormed t.
Proof.
  destruct c as [[h0 h1 h2 h3 h4 h5 h6 h7] [l0 l1 l2 l3 l4 l5 l6 l7]].
  reflexivity.
Qed.

Lemma wf_escape_char c t :
  is_high_surrogate c = false -> is_low_surrogate c = false ->
  isWellFormed (escape_char c ++ t) = isWellFormed t.
Proof.
  intros Hh Hl. unfold escape_char.
  repeat match goal with
  | |- context [if char16_eqb c ?x then _ else _] =>
      destruct (char16_eqb c x); [reflexivity|]
  end.
  destruct (is_control c).
  - apply wf_unicode_escape.
  - cbn [app isWellFormed]. now rewrite Hh, Hl.
Qed.

Lemma wf_quote_body s t :
  isWellFormed (quote_body s ++ t) = isWellFormed t.
Proof.
  induction s as [|c s IH1 IH2] using list_ind_pairs; [reflexivity|].
  cbn [quote_body].
  destruct (is_high_surrogate c) eqn:Hh.
  - destruct s as [|d s'].
    + apply wf_unicode_escape.
    + destruct (is_low_surrogate d) eqn:Hl.
      * cbn [app isWellFormed]. rewrite Hh, Hl. cbn [andb]. now apply (IH2 d s').
      * now rewrite <- app_assoc, wf_unicode_escape.
  - destruct (is_low_surrogate c) eqn:Hl; rewrite <- app_assoc.
    + now rewrite wf_unicode_escape.
    + now rewrite wf_escape_char.
Qed.

Lemma wf_quote s t : isWellFormed (quote s ++ t) = isWellFormed t.
Proof.
  unfold quote.
  change (isWellFormed ((quote_body s ++ [dquote]) ++ t) = isWellFormed t).
  now rewrite <- app_assoc, wf_quote_body.
Qed.

Lemma wf_js (lit : string) t : isWellFormed (js lit ++ t) = isWellFormed t.
Proof.
  unfold js. induction (list_ascii_of_string lit) as [|a l IH]; [reflexivity|].
  cbn [map app]. now rewrite wf_cons_ascii.
Qed.

End JsonFacts.

(** ** JSON objects of string members *)

Module JsonObjectFacts.
Import Json Utf8Facts JsonFacts.

Lemma parse_value_quote f s rest :
  parse_value (S f) (quote s ++ rest) = Some (JString s, rest).
Proof.
  unfold quote.
  change (match parse_string_body ((quote_body s ++ [dquote]) ++ rest) with
          | Some (t, rest') => Some (JString t, rest')
          | None => None
          end = Some (JString s, rest)).
  rewrite <- app_assoc. cbn [app]. now rewrite parse_quote_body.
Qed.

Lemma parse_members_unfold f acc body :
  parse_members (S f) acc (dquote :: body)
  = match parse_string_body body with
    | Some (k, rest1) =>
        match skip_ws rest1 with
        | c1 :: rest2 =>
            if char16_eqb c1 (of_ascii ":") then
              match parse_value f rest2 with
              | Some (v, rest3) =>
                  match skip_ws rest3 with
                  | c3 :: rest4 =>
                      if char16_eqb c3 (of_ascii ",")
                      then parse_members f (obj_set acc k v) rest4
                      else if char16_eqb c3 (of_ascii "}")
                      then Some (JObject (obj_set acc k v), rest4)
                      else None
                  | [] => None
                  end
              | None => None
              end
            else None
        | [] => None
        end
    | None => None
    end.
Proof. reflexivity. Qed.

(** One member: the key, the colon, then whatever parses the value. *)
Lemma parse_members_key f acc k rest2 :
  parse_members (S f) acc (quote k ++ js ":" ++ rest2)
  = match parse_value f rest2 with
    | Some (v, rest3) =>
        match skip_ws rest3 with
        | c3 :: rest4 =>
            if char16_eqb c3 (of_ascii ",")
            then parse_members f (obj_set acc k v) rest4
            else if char16_eqb c3 (of_ascii "}")
            then Some (JObject (obj_set acc k v), rest4)
            else None
        | [] => None
        end
    | None => None
    end.
Proof.
  unfold quote. cbn [app]. rewrite parse_members_unfold.
  rewrite <- app_assoc. cbn [app]. rewrite parse_quote_body.
  reflexivity.
Qed.

Lemma parse_member_last f acc kv rest :
  parse_members (S (S f)) acc (member_text kv ++ js "}" ++ rest)
  = Some (JObject (obj_set acc (fst kv) (JString (snd kv))), rest).
Proof.
  unfold member_text. rewrite <- !app_assoc.
  now rewrite parse_members_key, parse_value_quote.
Qed.

Lemma parse_member_next f acc kv rest :
  parse_members (S (S f)) acc (member_text kv ++ js "," ++ rest)
  = parse_members (S f) (obj_set acc (fst kv) (JString (snd kv))) rest.
Proof.
  unfold member_text. rewrite <- !app_assoc.
  now rewrite parse_members_key, parse_value_quote.
Qed.

Lemma parse_members_strings kvs : forall acc f rest,
  kvs <> [] ->
  parse_members (S (length kvs) + f) acc
                (join_comma (map member_text kvs) ++ js "}" ++ rest)
  = Some (JObject (set_all acc kvs), rest).
Proof.
  induction kvs as [|kv kvs IH]; intros acc f rest Hne; [congruence|].
  destruct kvs as [|kv2 kvs].
  - cbn [map join_comma length Nat.add]. apply parse_member_last.
  - change (join_comma (map member_text (kv :: kv2 :: kvs)))
      with (member_text kv ++ js "," ++ join_comma (map member_text (kv2 :: kvs))).
    rewrite <- !app_assoc.
    change (S (length (kv :: kv2 :: kvs)) + f) with (S (S (length (kv2 :: kvs) + f))).
    rewrite parse_member_next.
    apply (IH _ f rest). discriminate.
Qed.

(** The text of a non-empty object of string members parses back. *)
Lemma parse_value_object_text kvs f rest :
  kvs <> [] ->
  parse_value (S (S (length kvs)) + f) (object_text kvs ++ rest)
  = Some (JObject (set_all [] kvs), rest).
Proof.
  intros Hne. unfold object_text.
  destruct kvs as [|kv kvs]; [congruence|].
  destruct (map member_text (kv :: kvs)) as [|m ms] eqn:Em; [discriminate|].
  assert (Hm : exists body, join_comma (m :: ms) = dquote :: body).
  { injection Em as <- _. destruct ms; cbn; unfold member_text, quote; eauto. }
  destruct Hm as [body Hbody].
  rewrite <- !app_assoc.
  change (parse_value (S (S (length (kv :: kvs))) + f)
            (js "{" ++ join_comma (m :: ms) ++ js "}" ++ rest))
    with (match skip_ws (join_comma (m :: ms) ++ js "}" ++ rest) with
          | c' :: rest' =>
              if char16_eqb c' (of_ascii "}") then Some (JObject [], rest')
              else parse_members (S (length (kv :: kvs)) + f) [] (c' :: rest')
          | [] => None
          end).
  rewrite Hbody. cbn [app].
  change (skip_ws (dquote :: body ++ js "}" ++ rest)) with (dquote :: body ++ js "}" ++ rest).
  change (char16_eqb dquote (of_ascii "}")) with false. cbn iota.
  change (dquote :: body ++ js "}" ++ rest) with ((dquote :: body) ++ js "}" ++ rest).
  rewrite <- Hbody, <- Em.
  now apply parse_members_strings.
Qed.

Lemma stringify_string_object kvs :
  stringify (string_object kvs) = Some (object_text kvs).
Proof.
  unfold string_object, object_text. cbn [stringify].
  do 4 f_equal.
  induction kvs as [|[k v] kvs IH]; [reflexivity|].
  cbn [map fst snd stringify]. unfold member_text at 1. cbn [fst snd].
  f_equal. exact IH.
Qed.

Lemma wf_object_text kvs t :
  isWellFormed (object_text kvs ++ t) = isWellFormed t.
Proof.
  unfold object_text. rewrite <- !app_assoc, wf_js.
  induction kvs as [|kv kvs IH]; [cbn [map join_comma app]; apply wf_js|].
  destruct kvs as [|kv2 kvs].
  - cbn [map join_comma]. unfold member_text.
    now rewrite <- !app_assoc, wf_quote, wf_js, wf_quote, wf_js.
  - change (join_comma (map member_text (kv :: kv2 :: kvs)))
      with (member_text kv ++ js "," ++ join_comma (map member_text (kv2 :: kvs))).
    unfold member_text at 1.
    now rewrite <- !app_assoc, wf_quote, wf_js, wf_quote, wf_js.
Qed.

End JsonObjectFacts.

(** ** Authenticated encryption *)

Module GcmFacts.
Import Gcm.

Lemma xor_byte_involutive a k : xor_byte (xor_byte a k) k = a.
Proof.
  destruct a as [a0 a1 a2 a3 a4 a5 a6 a7], k as [k0 k1 k2 k3 k4 k5 k6 k7].
  cbn. now rewrite !xorb_assoc, !xorb_nilpotent, !xorb_false_r.
Qed.

Lemma xor_bytes_length p : forall k,
  length p <= length k -> length (xor_bytes p k) = length p.
Proof.
  induction p as [|a p IH]; intros [|b k] H; cbn in *; try lia.
  now rewrite IH by lia.
Qed.

Lemma xor_bytes_involutive p : forall k,
  length p <= length k -> xor_bytes (xor_bytes p k) k = p.
Proof.
  induction p as [|a p IH]; intros [|b k] H; cbn in *;
    try reflexivity; try lia.
  now rewrite xor_byte_involutive, IH by lia.
Qed.

Lemma encrypt_block_length key block :
  length (Aes256.encrypt_block key block) = 16.
Proof.
  unfold Aes256.encrypt_block, Aes256.add_round_key.
  now rewrite length_map, length_seq.
Qed.

Lemma flat_map_length_const (A B : Type) (f : A -> list B) n l :
  (forall x, length (f x) = n) -> length (flat_map f l) = n * length l.
Proof.
  intros Hf. induction l as [|x l IH]; cbn [flat_map length]; [lia|].
  rewrite length_app, Hf, IH. lia.
Qed.

Lemma key_stream_length key iv len :
  length (key_stream key iv len) = 16 * block_count len.
Proof.
  unfold key_stream.
  rewrite flat_map_length_const with (n := 16), length_seq; [reflexivity|].
  intros. apply encrypt_block_length.
Qed.

Lemma key_stream_covers key iv len : len <= length (key_stream key iv len).
Proof.
  rewrite key_stream_length. unfold block_count.
  pose proof (Nat.div_mod_eq (len + 15) 16).
  pose proof (Nat.mod_upper_bound (len + 15) 16). lia.
Qed.

Lemma bytes_eqb_refl b : bytes_eqb b b = true.
Proof. unfold bytes_eqb. now destruct (list_eq_dec ascii_dec b b). Qed.

Lemma bytes_eqb_eq a b : bytes_eqb a b = true -> a = b.
Proof. unfold bytes_eqb. now destruct (list_eq_dec ascii_dec a b). Qed.

Lemma ciphertext_length key iv aad pt :
  length (fst (encrypt key iv aad pt)) = length pt.
Proof. cbn [encrypt fst]. apply xor_bytes_length, key_stream_covers. Qed.

(** Decryption under the same key, IV and additional data returns the
    plaintext. *)
Lemma decrypt_encrypt key iv aad pt :
  decrypt key iv aad (fst (encrypt key iv aad pt)) (snd (encrypt key iv aad pt))
  = Some pt.
Proof.
  unfold decrypt. cbn [encrypt fst snd].
  rewrite bytes_eqb_refl.
  rewrite xor_bytes_length by apply key_stream_covers.
  now rewrite xor_bytes_involutive by apply key_stream_covers.
Qed.

(** Nothing is returned unless the tag is the one the key, IV,
    additional data and ciphertext determine. *)
Lemma decrypt_some_tag key iv aad ct tag pt :
  decrypt key iv aad ct tag = Some pt -> tag = tag_of key iv aad ct.
Proof.
  unfold decrypt. destruct (bytes_eqb tag (tag_of key iv aad ct)) eqn:E; [|discriminate].
  intros _. now apply bytes_eqb_eq.
Qed.

Lemma bytes_of_bits_length n : forall bits, length (Gcm.bytes_of_bits n bits) = n.
Proof. induction n as [|n IH]; intros bits; cbn [Gcm.bytes_of_bits length]; now rewrite ?IH. Qed.

Lemma tag_length key iv aad ct : length (Gcm.tag_of key iv aad ct) = 16.
Proof.
  unfold Gcm.tag_of, Gcm.ghash.
  rewrite xor_bytes_length; rewrite bytes_of_bits_length; [reflexivity|].
  now rewrite encrypt_block_length.
Qed.

End GcmFacts.

(** ** Compact serialization *)

Module JoseFacts.
Import Json Jose JsonFacts.

Lemma to_bytes_of_bytes bs : to_bytes (of_bytes bs) = Some bs.
Proof.
  induction bs as [|a bs IH]; [reflexivity|].
  cbn [of_bytes map to_bytes of_ascii zero]. fold (of_bytes bs). now rewrite IH.
Qed.

Lemma split_dot_no_dot s : no_dot s -> split_dot s = [s].
Proof.
  induction 1 as [|c s Hc _ IH]; [reflexivity|].
  cbn [split_dot]. now rewrite Hc, IH.
Qed.

Lemma split_dot_app s rest :
  no_dot s -> split_dot (s ++ dot :: rest) = s :: split_dot rest.
Proof.
  induction 1 as [|c s Hc _ IH]; [reflexivity|].
  cbn [app split_dot]. now rewrite Hc, IH.
Qed.

Lemma split_join5 a b c d e :
  no_dot a -> no_dot b -> no_dot c -> no_dot d -> no_dot e ->
  split_dot (join_dot [a; b; c; d; e]) = [a; b; c; d; e].
Proof.
  intros. cbn [join_dot].
  now rewrite !split_dot_app, split_dot_no_dot.
Qed.

Lemma url_char_no_dot s :
  char16_eqb (of_ascii (Base64.char_of_sextet Base64.url_alphabet s)) dot = false.
Proof. destruct s as [[] [] [] [] [] []]; reflexivity. Qed.

Lemma url_char_ascii s :
  match Base64.char_of_sextet Base64.url_alphabet s with
  | Ascii _ _ _ _ _ _ _ b7 => b7 = false
  end.
Proof. destruct s as [[] [] [] [] [] []]; reflexivity. Qed.

Lemma base64url_chars (P : ascii -> Prop) bs :
  (forall s, P (Base64.char_of_sextet Base64.url_alphabet s)) ->
  Forall P (Base64.base64url_encode bs).
Proof.
  intros HP. unfold Base64.base64url_encode.
  induction bs as [|a|a b|a b c l IH] using Base64Facts.list_ind3; cbn [Base64.encode].
  - constructor.
  - destruct (Base64.sextets1 a) as [s1 s2]. repeat constructor; apply HP.
  - destruct (Base64.sextets2 a b) as [[s1 s2] s3]. repeat constructor; apply HP.
  - destruct (Base64.sextets3 a b c) as [[[s1 s2] s3] s4].
    repeat (constructor; [apply HP|]). exact IH.
Qed.

Lemma base64url_no_dot bs : no_dot (of_bytes (Base64.base64url_encode bs)).
Proof.
  unfold no_dot, of_bytes. apply Forall_map.
  apply base64url_chars. apply url_char_no_dot.
Qed.

Lemma encode_base64url bs :
  Utf8.encode (of_bytes (Base64.base64url_encode bs)) = Base64.base64url_encode bs.
Proof. apply Utf8Facts.encode_ascii, base64url_chars, url_char_ascii. Qed.

Lemma decode_segment_encode bs :
  decode_segment (of_bytes (Base64.base64url_encode bs)) = Some bs.
Proof.
  unfold decode_segment.
  now rewrite to_bytes_of_bytes, Base64Facts.base64url_roundtrip.
Qed.

End JoseFacts.

(** ** The credential document *)

Module DocumentFacts.
Import Json JsonFacts JsonObjectFacts CredentialsActivation.

Lemma payload_text c :
  JSON_stringify (JObject [(js "data", requestData c)])
  = data_wrapper_text (object_text (credential_members c)).
Proof.
  destruct c as [a s [t|]]; reflexivity.
Qed.

Lemma wf_payload_text c :
  isWellFormed (data_wrapper_text (object_text (credential_members c))) = true.
Proof.
  unfold data_wrapper_text.
  rewrite wf_js, wf_quote, wf_js, wf_object_text. reflexivity.
Qed.

Lemma member_text_length kv : 1 <= length (member_text kv).
Proof. unfold member_text, quote. cbn [app length]. lia. Qed.

Lemma object_text_length kvs : length kvs + 2 <= length (object_text kvs).
Proof.
  unfold object_text. rewrite !length_app.
  enough (length kvs <= length (join_comma (map member_text kvs)))
    by (cbn [js map list_ascii_of_string length]; lia).
  induction kvs as [|kv kvs IH]; [cbn; lia|].
  destruct kvs as [|kv2 kvs].
  - cbn [map join_comma length]. apply member_text_length.
  - change (join_comma (map member_text (kv :: kv2 :: kvs)))
      with (member_text kv ++ js "," ++ join_comma (map member_text (kv2 :: kvs))).
    rewrite !length_app. pose proof (member_text_length kv).
    cbn [length] in *. lia.
Qed.

Lemma parse_object_text kvs :
  kvs <> [] -> parse (object_text kvs) = Some (JObject (set_all [] kvs)).
Proof.
  intros Hne. unfold parse.
  pose proof (object_text_length kvs) as Hlen.
  assert (Hfuel : S (length (object_text kvs))
                  = S (S (length kvs)) + (length (object_text kvs) - length kvs - 1)).
  { lia. }
  rewrite Hfuel.
  rewrite <- (app_nil_r (object_text kvs)) at 2.
  now rewrite parse_value_object_text.
Qed.

Lemma parse_data_wrapper kvs :
  kvs <> [] ->
  parse (data_wrapper_text (object_text kvs))
  = Some (JObject [(js "data", JObject (set_all [] kvs))]).
Proof.
  intros Hne. unfold parse.
  pose proof (object_text_length kvs) as Hlen.
  set (text := data_wrapper_text (object_text kvs)).
  assert (Hfuel : S (length text)
                  = S (S (S (S (length kvs)) + (length text - length kvs - 3)))).
  { subst text. unfold data_wrapper_text. rewrite !length_app.
    cbn [js length map list_ascii_of_string]. lia. }
  rewrite Hfuel. subst text. unfold data_wrapper_text.
  set (f := _ - _ - 3).
  change (parse_value (S (S (S (S (length kvs)) + f)))
            (js "{" ++ quote (js "data") ++ js ":" ++ object_text kvs ++ js "}"))
    with (parse_members (S (S (S (length kvs)) + f)) []
            (quote (js "data") ++ js ":" ++ object_text kvs ++ js "}")).
  rewrite parse_members_key.
  now rewrite parse_value_object_text.
Qed.

Lemma credentials_of_members c :
  Worker.credentials_of (JObject [(js "data", JObject (set_all [] (credential_members c)))])
  = Some c.
Proof. destruct c as [a s [t|]]; reflexivity. Qed.

(** The plaintext decodes and parses back to the credentials. *)
Lemma read_payload c :
  match Utf8.decode (payload c) with
  | Some text =>
      match parse text with
      | Some v => Worker.credentials_of v
      | None => None
      end
  | None => None
  end = Some c.
Proof.
  unfold payload. rewrite payload_text.
  rewrite Utf8Facts.decode_encode by apply wf_payload_text.
  rewrite parse_data_wrapper by (destruct c as [a s [t|]]; discriminate).
  apply credentials_of_members.
Qed.

End DocumentFacts.

(** ** The envelope *)

Module EnvelopeFacts.
Import Json Jose JsonFacts JoseFacts GcmFacts CredentialsActivation.

Lemma parse_protected_header :
  parse_protected (protected_b64 (JObject protectedHeader)) = Some protectedHeader.
Proof. vm_compute. reflexivity. Qed.

Lemma header_alg : is_string (obj_get protectedHeader (js "alg")) "dir" = true.
Proof. reflexivity. Qed.

Lemma header_enc : is_string (obj_get protectedHeader (js "enc")) "A256GCM" = true.
Proof. reflexivity. Qed.

Lemma encrypt_with_iv_ok plaintext key iv :
  length key = 32 ->
  encrypt_with_iv protectedHeader plaintext key iv
  = Ok (join_dot (segments plaintext key iv)).
Proof.
  intros Hkey. unfold encrypt_with_iv, segments.
  rewrite header_alg, header_enc, Hkey. cbn [negb Nat.eqb cek_length].
  now destruct (Gcm.encrypt _ _ _ _).
Qed.

Lemma encrypt_with_iv_bad_key plaintext key iv :
  length key <> 32 ->
  encrypt_with_iv protectedHeader plaintext key iv
  = Err (JWEInvalid "Invalid Content Encryption Key length").
Proof.
  intros Hkey. unfold encrypt_with_iv.
  rewrite header_alg, header_enc. cbn [negb].
  apply Nat.eqb_neq in Hkey. unfold cek_length. now rewrite Hkey.
Qed.

Lemma split_segments plaintext key iv :
  split_dot (join_dot (segments plaintext key iv)) = segments plaintext key iv.
Proof.
  unfold segments. apply split_join5;
    try apply base64url_no_dot. constructor.
Qed.

Lemma compactDecrypt_segments plaintext key iv :
  length key = 32 -> length iv = 12 ->
  compactDecrypt (join_dot (segments plaintext key iv)) key = Ok plaintext.
Proof.
  intros Hkey Hiv. unfold compactDecrypt.
  rewrite split_segments. unfold segments.
  rewrite parse_protected_header, header_alg, header_enc, Hkey.
  cbn [negb length Nat.eqb cek_length].
  rewrite !decode_segment_encode, Hiv. cbn [negb Nat.eqb iv_length].
  now rewrite decrypt_encrypt.
Qed.

End EnvelopeFacts.

(** ** Commands *)

Module CommandFacts.
Import Json LanguageClient CredentialsActivation EnvelopeFacts DocumentFacts.

Lemma notifications_app t1 t2 :
  notifications (t1 ++ t2) = notifications t1 ++ notifications t2.
Proof.
  induction t1 as [|e t1 IH]; [reflexivity|].
  destruct e; cbn [app notifications]; now rewrite ?IH.
Qed.

Lemma writes_app t1 t2 : writes (t1 ++ t2) = writes t1 ++ writes t2.
Proof.
  induction t1 as [|e t1 IH]; [reflexivity|].
  destruct e; cbn [app writes]; now rewrite ?IH.
Qed.

(** What [createUpdateIamCredentialsRequest] returns: the envelope built
    with the next twelve random bytes as IV. *)
Lemma createUpdateIamCredentialsRequest_run key c w :
  createUpdateIamCredentialsRequest key c w
  = match Jose.encrypt_with_iv protectedHeader (payload c) key (next_random w 12) with
    | Ok jwt => (Ok {| data := jwt |}, draw w 12)
    | Err e => (Err e, draw w 12)
    end.
Proof.
  unfold createUpdateIamCredentialsRequest, Jose.CompactEncrypt, bind, randomBytes, lift, ret.
  cbn [Jose.iv_length]. fold (next_random w 12). fold (draw w 12).
  now destruct (Jose.encrypt_with_iv _ _ _ _).
Qed.

Lemma next_random_length w n : length (next_random w n) = n.
Proof. unfold next_random. now rewrite length_map, length_seq. Qed.

Lemma createSelectProfileCommand_run key showInputBox fromIni client w :
  createSelectProfileCommand key showInputBox fromIni client w
  = match fromIni (showInputBox selectProfile_prompt) with
    | Err e => (Err e, w)
    | Ok c =>
        match Jose.encrypt_with_iv protectedHeader (payload c) key (next_random w 12) with
        | Err e => (Err e, draw w 12)
        | Ok envelope =>
            (Ok tt,
             after_events (draw w 12)
               [EvSendNotification (js "$/aws/credentials/iam/update")
                                   (Some (JObject [(js "data", JString envelope)]));
                EvInfo (profile_message (showInputBox selectProfile_prompt))])
        end
    end.
Proof.
  unfold createSelectProfileCommand.
  unfold bind at 1. unfold lift at 1.
  destruct (fromIni (showInputBox selectProfile_prompt)) as [c|e]; [|reflexivity].
  unfold bind at 1. rewrite createUpdateIamCredentialsRequest_run.
  destruct (Jose.encrypt_with_iv _ _ _ _) as [envelope|e]; [|reflexivity].
  unfold bind, sendIamCredentialsUpdate, sendNotification, info, emit, after_events.
  cbn. now rewrite <- app_assoc.
Qed.
Lemma select_profile_writes key showInputBox fromIni client w :
  writes (trace (snd (createSelectProfileCommand key showInputBox fromIni client w)))
  = writes (trace w).
Proof.
  rewrite createSelectProfileCommand_run.
  destruct (fromIni (showInputBox selectProfile_prompt)) as [c|e]; [|reflexivity].
  destruct (Jose.encrypt_with_iv _ _ _ _) as [envelope|e]; [|reflexivity].
  cbn [snd after_events trace draw]. rewrite writes_app. cbn [writes].
  apply app_nil_r.
Qed.

Lemma clear_profile_writes client w :
  writes (trace (snd (createClearProfileCommand client w))) = writes (trace w).
Proof.
  cbn [createClearProfileCommand sendNotification emit snd trace].
  rewrite writes_app. apply app_nil_r.
Qed.

End CommandFacts.

(** ** Encryption, update and delete *)

Section CredentialRelay.
Import Json LanguageClient CredentialsActivation.
Import GcmFacts JoseFacts EnvelopeFacts DocumentFacts CommandFacts.

(** C2: for every credential payload and every 32-byte key, the worker's
    decryption, with the same key, of the envelope that
    [createUpdateIamCredentialsRequest] produces yields exactly the
    payload. *)
Theorem encrypt_decrypt_roundtrip
        (c : AwsSdk.AwsCredentialIdentity) (key : bytes) (w : World) :
  length key = 32 ->
  exists envelope,
    createUpdateIamCredentialsRequest key c w = (Ok {| data := envelope |}, draw w 12)
    /\ Worker.decrypt envelope key = Some c.
Proof.
  intros Hkey. exists (Jose.join_dot (segments (payload c) key (next_random w 12))).
  split.
  - rewrite createUpdateIamCredentialsRequest_run.
    now rewrite encrypt_with_iv_ok.
  - unfold Worker.decrypt.
    rewrite compactDecrypt_segments by (auto using next_random_length).
    apply read_payload.
Qed.

Lemma encrypt_decrypt_roundtrip_witness :
  length sample_key = 32
  /\ exists envelope,
      createUpdateIamCredentialsRequest sample_key sample_credentials sample_world
      = (Ok {| data := envelope |}, draw sample_world 12)
      /\ Worker.decrypt envelope sample_key = Some sample_credentials.
Proof.
  split; [reflexivity|].
  apply (encrypt_decrypt_roundtrip sample_credentials sample_key sample_world).
  reflexivity.
Defined.

(** C4: the select-profile command sends nothing unless both the
    resolution of the profile and the encoding succeed: when either fails
    the command ends with that error and no call has been made on the
    client; otherwise exactly one update is sent, after both. *)
Theorem select_profile_atomic
        (key : bytes) (showInputBox : jsstring -> option jsstring)
        (fromIni : option jsstring -> result AwsSdk.AwsCredentialIdentity)
        (client : LanguageClient) (w : World) :
  let run := createSelectProfileCommand key showInputBox fromIni client w in
  match fromIni (showInputBox selectProfile_prompt) with
  | Err e =>
      run = (Err e, w)
      /\ notifications (trace (snd run)) = notifications (trace w)
  | Ok c =>
      match Jose.encrypt_with_iv protectedHeader (payload c) key (next_random w 12) with
      | Err e =>
          run = (Err e, draw w 12)
          /\ notifications (trace (snd run)) = notifications (trace w)
      | Ok envelope =>
          fst run = Ok tt
          /\ notifications (trace (snd run))
             = notifications (trace w)
               ++ [(js "$/aws/credentials/iam/update",
                    Some (JObject [(js "data", JString envelope)]))]
      end
  end.
Proof.
  intros run. subst run. rewrite createSelectProfileCommand_run.
  destruct (fromIni (showInputBox selectProfile_prompt)) as [c|e]; [|now split].
  destruct (Jose.encrypt_with_iv _ _ _ _) as [envelope|e]; [|now split].
  split; [reflexivity|].
  cbn [snd after_events trace draw]. now rewrite notifications_app.
Qed.

(** The segments, with the encryption written out. *)
Lemma segments_eq plaintext key iv :
  segments plaintext key iv
  = let header := Jose.protected_b64 (JObject protectedHeader) in
    let ciphertext := xor_bytes plaintext (Gcm.key_stream key iv (length plaintext)) in
    [header; [];
     Jose.of_bytes (Base64.base64url_encode iv);
     Jose.of_bytes (Base64.base64url_encode ciphertext);
     Jose.of_bytes (Base64.base64url_encode
                      (Gcm.tag_of key iv (Utf8.encode header) ciphertext))].
Proof. reflexivity. Qed.

(** C7: for a resolved payload and a 32-byte key the envelope has
    exactly five dot-separated segments: the protected header, which is
    the base64url text of [{"alg":"dir","enc":"A256GCM"}]; an empty
    encrypted key; the base64url texts of the twelve bytes drawn for the
    IV, of the ciphertext (the plaintext under the AES-256 counter-mode key
    stream, of the plaintext's length) and of the 16-byte GCM tag over the
    header and the ciphertext, under which the ciphertext decrypts to the
    plaintext.  The select-profile command sends the envelope in one
    notification of method [$/aws/credentials/iam/update] with body
    [{ data: envelope }]. *)
Theorem update_notification_shape
        (key : bytes) (showInputBox : jsstring -> option jsstring)
        (fromIni : option jsstring -> result AwsSdk.AwsCredentialIdentity)
        (client : LanguageClient) (w : World) (c : AwsSdk.AwsCredentialIdentity) :
  length key = 32 ->
  fromIni (showInputBox selectProfile_prompt) = Ok c ->
  let plaintext := Utf8.encode (JSON_stringify (JObject [(js "data", requestData c)])) in
  let iv := next_random w 12 in
  let header := js "eyJhbGciOiJkaXIiLCJlbmMiOiJBMjU2R0NNIn0" in
  let ciphertext := xor_bytes plaintext (Gcm.key_stream key iv (length plaintext)) in
  let tag := Gcm.tag_of key iv (Utf8.encode header) ciphertext in
  exists envelope,
    createUpdateIamCredentialsRequest key c w = (Ok {| data := envelope |}, draw w 12)
    /\ Jose.split_dot envelope
       = [header; [];
          Jose.of_bytes (Base64.base64url_encode iv);
          Jose.of_bytes (Base64.base64url_encode ciphertext);
          Jose.of_bytes (Base64.base64url_encode tag)]
    /\ length (Jose.split_dot envelope) = 5
    /\ envelope
       = header ++ [Jose.dot] ++ [Jose.dot]
         ++ Jose.of_bytes (Base64.base64url_encode iv) ++ [Jose.dot]
         ++ Jose.of_bytes (Base64.base64url_encode ciphertext) ++ [Jose.dot]
         ++ Jose.of_bytes (Base64.base64url_encode tag)
    /\ Jose.parse_protected header
       = Some [(js "alg", JString (js "dir")); (js "enc", JString (js "A256GCM"))]
    /\ map Jose.decode_segment (skipn 2 (Jose.split_dot envelope))
       = [Some iv; Some ciphertext; Some tag]
    /\ length iv = 12
    /\ length ciphertext = length plaintext
    /\ length tag = 16
    /\ Gcm.decrypt key iv (Utf8.encode header) ciphertext tag = Some plaintext
    /\ createSelectProfileCommand key showInputBox fromIni client w
       = (Ok tt,
          after_events (draw w 12)
            [EvSendNotification (js "$/aws/credentials/iam/update")
                                (Some (JObject [(js "data", JString envelope)]));
             EvInfo (profile_message (showInputBox selectProfile_prompt))])
    /\ sendIamCredentialsUpdate {| data := envelope |} client (draw w 12)
       = (Ok tt,
          after_events (draw w 12)
            [EvSendNotification (iamCredentialsUpdate lspMethodNames)
                                (Some (JObject [(js "data", JString envelope)]))]).
Proof.
  intros Hkey Hres plaintext iv header ciphertext tag.
  assert (Hheader : Jose.protected_b64 (JObject protectedHeader) = header)
    by apply KnownAnswers.protected_header_text.
  assert (Hsegs : segments plaintext key iv
                  = [header; [];
                     Jose.of_bytes (Base64.base64url_encode iv);
                     Jose.of_bytes (Base64.base64url_encode ciphertext);
                     Jose.of_bytes (Base64.base64url_encode tag)]).
  { rewrite segments_eq. cbv zeta. rewrite Hheader. reflexivity. }
  assert (Hsplit : Jose.split_dot (Jose.join_dot (segments plaintext key iv))
                   = segments plaintext key iv) by apply split_segments.
  assert (Hdec : Gcm.decrypt key iv (Utf8.encode header) ciphertext tag = Some plaintext).
  { pose proof (decrypt_encrypt key iv (Utf8.encode header) plaintext) as H.
    exact H. }
  clearbody header. 
  exists (Jose.join_dot (segments plaintext key iv)).
  split; [|split; [|split; [|split; [|split; [|split; [|split; [|split;
    [|split; [|split; [|split]]]]]]]]]].
  - rewrite createUpdateIamCredentialsRequest_run.
    fold plaintext. unfold payload. fold plaintext. fold iv.
    now rewrite encrypt_with_iv_ok.
  - now rewrite Hsplit.
  - now rewrite Hsplit, Hsegs.
  - rewrite Hsegs. reflexivity.
  - rewrite <- Hheader. apply parse_protected_header.
  - rewrite Hsplit, Hsegs. cbn [skipn map].
    now rewrite !decode_segment_encode.
  - apply next_random_length.
  - apply xor_bytes_length, key_stream_covers.
  - apply tag_length.
  - exact Hdec.
  - rewrite createSelectProfileCommand_run, Hres.
    unfold payload. fold plaintext. fold iv. now rewrite encrypt_with_iv_ok.
  - reflexivity.
Qed.

Lemma update_notification_shape_witness :
  length sample_key = 32
  /\ exists envelope,
      createUpdateIamCredentialsRequest sample_key sample_credentials sample_world
      = (Ok {| data := envelope |}, draw sample_world 12)
      /\ length (Jose.split_dot envelope) = 5
      /\ nth 0 (Jose.split_dot envelope) [] = js "eyJhbGciOiJkaXIiLCJlbmMiOiJBMjU2R0NNIn0"
      /\ nth 1 (Jose.split_dot envelope) [] = []
      /\ createSelectProfileCommand sample_key (fun _ => Some (js "default"))
           (fun _ => Ok sample_credentials) sample_client sample_world
         = (Ok tt,
            after_events (draw sample_world 12)
              [EvSendNotification (js "$/aws/credentials/iam/update")
                                  (Some (JObject [(js "data", JString envelope)]));
               EvInfo (profile_message (Some (js "default")))]).
Proof.
  split; [reflexivity|].
  destruct (update_notification_shape sample_key (fun _ => Some (js "default"))
              (fun _ => Ok sample_credentials) sample_client sample_world
              sample_credentials eq_refl eq_refl)
    as (envelope & Hreq & Hsplit & Hlen & _ & _ & _ & _ & _ & _ & _ & Hcmd & _).
  exists envelope.
  split; [exact Hreq|]. split; [exact Hlen|].
  split; [now rewrite Hsplit|]. split; [now rewrite Hsplit|].
  exact Hcmd.
Defined.

(** C8: every run of the clear-profile command issues exactly one
    notification, of method [$/aws/credentials/iam/delete] and without
    parameters, whatever was sent before. *)
Theorem clear_profile_unconditional (client : LanguageClient) (w : World) :
  createClearProfileCommand client w
  = (Ok tt, after_events w [EvSendNotification (js "$/aws/credentials/iam/delete") None])
  /\ notifications (trace (snd (createClearProfileCommand client w)))
     = notifications (trace w) ++ [(js "$/aws/credentials/iam/delete", None)].
Proof.
  split; [reflexivity|].
  cbn [createClearProfileCommand sendNotification emit snd trace].
  now rewrite notifications_app.
Qed.

(** C10: the plaintext that [createUpdateIamCredentialsRequest]
    encrypts is the UTF-8 text of [{ data: ... }]: the request it returns
    is the compact JWE of those bytes, which decrypt under the key to that
    text (the encryption fails only when the key is not 32 bytes long).
    Without a session token the inner object has the members
    [accessKeyId] and [secretAccessKey] only, and no [sessionToken]
    property; with a session token it has that third member, holding the
    token. *)
Theorem payload_optional_session_token
        (c : AwsSdk.AwsCredentialIdentity) (key : bytes) (w : World) :
  let text := JSON_stringify (JObject [(js "data", requestData c)]) in
  let a := AwsSdk.accessKeyId c in
  let s := AwsSdk.secretAccessKey c in
  payload c = Utf8.encode text
  /\ Utf8.decode (payload c) = Some text
  /\ createUpdateIamCredentialsRequest key c w
     = (jwt <- Jose.CompactEncrypt (Utf8.encode text) protectedHeader key ;;
        ret {| data := jwt |}) w
  /\ match fst (createUpdateIamCredentialsRequest key c w) with
     | Ok request =>
         length key = 32
         /\ Jose.compactDecrypt (data request) key = Ok (Utf8.encode text)
     | Err _ => length key <> 32
     end
  /\ match AwsSdk.sessionToken c with
     | None =>
         text = data_wrapper_text
                  (object_text [(js "accessKeyId", a); (js "secretAccessKey", s)])
         /\ parse text
            = Some (JObject [(js "data",
                              JObject [(js "accessKeyId", JString a);
                                       (js "secretAccessKey", JString s)])])
         /\ obj_has [(js "accessKeyId", JString a); (js "secretAccessKey", JString s)]
                    (js "sessionToken") = false
     | Some t =>
         text = data_wrapper_text
                  (object_text [(js "accessKeyId", a); (js "secretAccessKey", s);
                                (js "sessionToken", t)])
         /\ parse text
            = Some (JObject [(js "data",
                              JObject [(js "accessKeyId", JString a);
                                       (js "secretAccessKey", JString s);
                                       (js "sessionToken", JString t)])])
     end.
Proof.
  intros text a s. subst a s.
  assert (Hdecode : Utf8.decode (payload c) = Some text).
  { unfold payload. fold text. subst text. rewrite payload_text.
    apply Utf8Facts.decode_encode, wf_payload_text. }
  split; [reflexivity|]. split; [exact Hdecode|].
  split; [reflexivity|]. split.
  - rewrite createUpdateIamCredentialsRequest_run.
    destruct (Nat.eq_dec (length key) 32) as [Hkey|Hkey].
    + rewrite encrypt_with_iv_ok by exact Hkey. cbn [fst data].
      split; [exact Hkey|].
      apply compactDecrypt_segments; [exact Hkey|apply next_random_length].
    + rewrite encrypt_with_iv_bad_key by exact Hkey. cbn [fst]. exact Hkey.
  - clear Hdecode. subst text. rewrite payload_text. destruct c as [a s [t|]]; cbn [AwsSdk.sessionToken].
    + split; [reflexivity|]. now rewrite parse_data_wrapper.
    + split; [reflexivity|]. split; [|reflexivity]. now rewrite parse_data_wrapper.
Qed.

End CredentialRelay.

(** ** The launch *)

Module LaunchFacts.
Import Json LanguageClient CredentialsActivation Extension.

(** The launch, run: the handoff calls (when encryption is required)
    come first, the start of the client comes last. *)
Lemma activate_run env path_join key ctx w :
  activateDocumentsLanguageServer env path_join key ctx w
  = (Ok (launched_client env path_join ctx w),
     {| entropy := entropy w; drawn := drawn w;
        next_handle := if enableEncryptionInit env
                       then S (S (next_handle w)) else next_handle w;
        trace := trace w
                 ++ (if enableEncryptionInit env
                     then handoff_events key (server_module env path_join ctx)
                                         (next_child w)
                     else [])
                 ++ setup_events env ++ [EvStart] |}).
Proof.
  unfold activateDocumentsLanguageServer, launched_client, options_with,
    setup_events, handoff_events,
    enableEncryptionInit, enableIamProvider, enableBearerTokenProvider,
    enableInlineCompletion, server_module, next_child, spawn_args.
  destruct (env_is_true env "ENABLE_IAM_PROVIDER"),
    (env_is_true env "ENABLE_TOKEN_PROVIDER"),
    (env_is_true env "ENABLE_INLINE_COMPLETION");
    cbn -[JSON_stringify init_request js];
    rewrite <- ?app_assoc; cbn [app]; reflexivity.
Qed.
End LaunchFacts.

(** ** The InitMessage *)

Module InitMessageFacts.
Import Json Jose JsonFacts JsonObjectFacts JoseFacts DocumentFacts CredentialsActivation.

Lemma encode_chars (P : ascii -> Prop) alpha padded bs :
  (forall s, P (Base64.char_of_sextet alpha s)) -> P Base64.pad_char ->
  Forall P (Base64.encode alpha padded bs).
Proof.
  intros HP Hpad.
  induction bs as [|a|a b|a b c l IH] using Base64Facts.list_ind3; cbn [Base64.encode].
  - constructor.
  - destruct (Base64.sextets1 a) as [s1 s2].
    destruct padded; repeat constructor; auto.
  - destruct (Base64.sextets2 a b) as [[s1 s2] s3].
    destruct padded; repeat constructor; auto.
  - destruct (Base64.sextets3 a b c) as [[[s1 s2] s3] s4].
    repeat (constructor; [apply HP|]). exact IH.
Qed.

Lemma std_char_copied s : copied (Base64.char_of_sextet Base64.std_alphabet s).
Proof. destruct s as [[] [] [] [] [] []]; reflexivity. Qed.

Lemma quote_body_copied bs :
  Forall copied bs -> quote_body (of_bytes bs) = of_bytes bs.
Proof.
  induction 1 as [|a bs Ha _ IH]; [reflexivity|].
  change (quote_body (of_bytes (a :: bs)))
    with (escape_char (of_ascii a) ++ quote_body (of_bytes bs)).
  now rewrite Ha, IH.
Qed.

Lemma quote_base64 bs :
  quote (of_bytes (Base64.toString_base64 bs)) = quoted (of_bytes (Base64.toString_base64 bs)).
Proof.
  unfold quote, quoted. rewrite quote_body_copied; [reflexivity|].
  apply encode_chars; [apply std_char_copied | reflexivity].
Qed.

Lemma init_request_text key :
  JSON_stringify (init_request key) = init_message_text key.
Proof.
  unfold JSON_stringify.
  change (init_request key) with (string_object (init_members key)).
  rewrite stringify_string_object.
  unfold object_text, init_members, init_message_text, member_text.
  cbn [map join_comma fst snd]. rewrite quote_base64.
  rewrite <- !app_assoc. reflexivity.
Qed.

Lemma parse_init_message key :
  parse (init_message_text key) = Some (string_object (init_members key)).
Proof.
  rewrite <- init_request_text. unfold JSON_stringify.
  change (init_request key) with (string_object (init_members key)).
  rewrite stringify_string_object.
  now rewrite parse_object_text by discriminate.
Qed.

End InitMessageFacts.

(** ** Startup and key handoff *)

Section Startup.
Import Json LanguageClient CredentialsActivation Extension.
Import CommandFacts LaunchFacts InitMessageFacts.

Lemma setup_no_write env : writes (setup_events env) = [].
Proof.
  unfold setup_events.
  now destruct (enableIamProvider env), (enableInlineCompletion env).
Qed.

Lemma written_app stream t1 t2 :
  written stream (t1 ++ t2) = written stream t1 ++ written stream t2.
Proof.
  induction t1 as [|e t1 IH]; [reflexivity|].
  destruct e; cbn [app written]; rewrite ?IH; try reflexivity.
  now destruct (_ =? _).
Qed.

Lemma setup_not_written stream env : written stream (setup_events env) = [].
Proof.
  unfold setup_events.
  now destruct (enableIamProvider env), (enableInlineCompletion env).
Qed.

Lemma handoff_written key serverModule child :
  written (stdin child) (handoff_events key serverModule child)
  = [JSON_stringify (init_request key); newline].
Proof.
  unfold handoff_events. cbn [written]. now rewrite Nat.eqb_refl.
Qed.

Lemma setup_no_start env : existsb is_start (setup_events env) = false.
Proof.
  unfold setup_events.
  now destruct (enableIamProvider env), (enableInlineCompletion env).
Qed.

(** C1: the flag that selects the startup protocol is the disjunction of
    the IAM and token provider flags of the environment.  A launch that
    does not require encryption writes nothing to any stream; a launch that
    requires it spawns the worker and writes the InitMessage and its
    newline to the worker's stdin, and both writes (the only ones) come
    before the one start of the language client, which is the last call of
    the launch; so whatever is written to that stream once the client has
    started follows the complete InitMessage.  The commands that may run
    afterwards write to no stream themselves. *)
Theorem startup_protocol_selection
        (env : string -> option jsstring)
        (path_join : jsstring -> jsstring -> jsstring)
        (key : bytes) (ctx : ExtensionContext) (w : World) :
  let run := activateDocumentsLanguageServer env path_join key ctx w in
  enableEncryptionInit env
  = (env_is_true env "ENABLE_IAM_PROVIDER" || env_is_true env "ENABLE_TOKEN_PROVIDER")
  /\ (exists client before,
        fst run = Ok client
        /\ trace (snd run) = trace w ++ before ++ [EvStart]
        /\ existsb is_start before = false
        /\ if enableEncryptionInit env
           then serverOptions client = ChildServer (next_child w)
                /\ before
                   = handoff_events key (server_module env path_join ctx) (next_child w)
                     ++ setup_events env
                /\ writes before
                   = [(stdin (next_child w), JSON_stringify (init_request key));
                      (stdin (next_child w), newline)]
                /\ (forall later,
                       concat (written (stdin (next_child w))
                                       (before ++ EvStart :: later))
                       = JSON_stringify (init_request key) ++ newline
                         ++ concat (written (stdin (next_child w)) later))
           else serverOptions client
                = StaticServer
                    {| module := server_module env path_join ctx; transport := ipc;
                       execArgv := debug_execArgv |}
                    {| module := server_module env path_join ctx; transport := ipc;
                       execArgv := debug_execArgv |}
                /\ before = setup_events env
                /\ writes before = [])
  /\ (forall showInputBox fromIni languageClient w',
        writes (trace (snd (createSelectProfileCommand
                              key showInputBox fromIni languageClient w')))
        = writes (trace w')
        /\ writes (trace (snd (createClearProfileCommand languageClient w')))
           = writes (trace w')).
Proof.
  intros run. subst run. split; [reflexivity|]. split.
  - rewrite activate_run. cbn [fst snd trace].
    exists (launched_client env path_join ctx w).
    exists ((if enableEncryptionInit env
             then handoff_events key (server_module env path_join ctx) (next_child w)
             else []) ++ setup_events env).
    split; [reflexivity|]. split; [now rewrite <- app_assoc|].
    rewrite existsb_app, writes_app, setup_no_write, setup_no_start.
    unfold launched_client. cbn [serverOptions].
    destruct (enableEncryptionInit env); repeat split; try reflexivity.
    intros later.
    rewrite !written_app, handoff_written, setup_not_written.
    cbn [app written concat]. reflexivity.
  - intros. split; [apply select_profile_writes | apply clear_profile_writes].
Qed.

(** C5: the launch writes the InitMessage once when encryption is
    required (and never otherwise): the text
    [{ version: 1.0, mode: JWT, key: base64 of the key }] as JSON, then
    a newline; the key is the 32 bytes the module drew when it was
    loaded, and decoding the [key] member of the message gives it
    back. *)
Theorem init_message_wire_format
        (env : string -> option jsstring)
        (path_join : jsstring -> jsstring -> jsstring)
        (ctx : ExtensionContext) (w : World) :
  let run := launch env path_join ctx w in
  let key := next_random w 32 in
  exists client events,
    fst run = Ok (key, client)
    /\ trace (snd run) = trace w ++ events
    /\ length key = 32
    /\ JSON_stringify (init_request key) = init_message_text key
    /\ parse (init_message_text key)
       = Some (JObject [(js "version", JString (js "1.0"));
                        (js "mode", JString (js "JWT"));
                        (js "key", JString (Jose.of_bytes (Base64.toString_base64 key)))])
    /\ Base64.from_base64 (Base64.toString_base64 key) = Some key
    /\ writes events
       = if enableEncryptionInit env
         then [(stdin (next_child w), init_message_text key);
               (stdin (next_child w), newline)]
         else [].
Proof.
  intros run key. subst run.
  assert (Hrun : launch env path_join ctx w
                 = (let (r, w') := activateDocumentsLanguageServer
                                     env path_join key ctx (draw w 32) in
                    match r with
                    | Ok client => (Ok (key, client), w')
                    | Err e => (Err e, w')
                    end)) by reflexivity.
  rewrite Hrun, activate_run. cbn [fst snd trace draw].
  eexists. eexists. split; [reflexivity|]. split; [reflexivity|].
  split; [apply next_random_length|].
  split; [apply init_request_text|].
  split; [apply parse_init_message|].
  split; [apply Base64Facts.base64_roundtrip|].
  rewrite !writes_app, setup_no_write.
  destruct (enableEncryptionInit env); [|reflexivity].
  cbn [handoff_events writes app]. now rewrite init_request_text.
Qed.

End Startup.

(** ** Capability configuration *)

Section Capabilities.
Import Json LanguageClient CredentialsActivation JsonFacts.

Lemma jsstring_eqb_eq a : forall b, jsstring_eqb a b = true -> a = b.
Proof.
  unfold jsstring_eqb.
  induction a as [|c a IH]; intros [|d b] H; try discriminate H; [reflexivity|].
  cbn [length combine forallb fst snd] in H.
  apply andb_true_iff in H. destruct H as [Hlen H].
  apply andb_true_iff in H. destruct H as [Hc H].
  apply char16_eqb_eq in Hc. subst d. f_equal.
  apply IH. cbn [Nat.eqb] in Hlen. now rewrite Hlen, H.
Qed.

(** Reading after writing: the written key holds the new value, every
    other key what it held. *)
Lemma obj_get_set props k v k' :
  obj_get (obj_set props k v) k' = if jsstring_eqb k' k then v else obj_get props k'.
Proof.
  induction props as [|[k0 v0] props IH]; cbn [obj_set obj_get].
  - reflexivity.
  - destruct (jsstring_eqb k k0) eqn:E0; cbn [obj_get].
    + apply jsstring_eqb_eq in E0. subst k0.
      now destruct (jsstring_eqb k' k).
    + destruct (jsstring_eqb k' k0) eqn:E1; [|exact IH].
      apply jsstring_eqb_eq in E1. subst k0.
      destruct (jsstring_eqb k' k) eqn:E2; [|reflexivity].
      apply jsstring_eqb_eq in E2. subst k'.
      now rewrite jsstring_eqb_refl in E0.
Qed.

(** The frame property as worded can be met: the implementation that
    creates the object only when the field is absent meets it at every
    input. *)
Lemma configure_as_specified_meets_frame (o : LanguageClientOptions) :
  configure_frame_as_stated configure_as_specified o.
Proof.
  unfold configure_frame_as_stated, configure_as_specified.
  intros o'. destruct o as [sel io ev]. cbn [initializationOptions].
  destruct io; cbn [set_initializationOptions initializationOptions];
    match goal with
    | |- context [set_property ?t ?k ?v] => destruct (set_property t k v) eqn:E
    end; intros [= <-]; repeat split.
Qed.



End Capabilities.

(* ================================================================== *)
(** * Further properties *)

(** ** Capability configuration, continued *)

Section CapabilitiesMore.
Import Json LanguageClient CredentialsActivation JsonFacts.

Lemma obj_set_idempotent props k v :
  obj_set (obj_set props k v) k v = obj_set props k v.
Proof.
  induction props as [|[k0 v0] props IH]; cbn [obj_set].
  - now rewrite jsstring_eqb_refl.
  - destruct (jsstring_eqb k k0) eqn:E; cbn [obj_set]; rewrite E; [reflexivity|].
    now rewrite IH.
Qed.

Lemma obj_set_keys props k v :
  map fst (obj_set props k v)
  = if obj_has props k then map fst props else map fst props ++ [k].
Proof.
  induction props as [|[k0 v0] props IH]; cbn [obj_set obj_has map fst app];
    [reflexivity|].
  destruct (jsstring_eqb k k0); cbn [orb map fst]; [reflexivity|].
  rewrite IH. now destruct (obj_has props k).
Qed.

Lemma obj_has_set props k v : obj_has (obj_set props k v) k = true.
Proof.
  induction props as [|[k0 v0] props IH]; cbn [obj_set obj_has].
  - now rewrite jsstring_eqb_refl.
  - destruct (jsstring_eqb k k0) eqn:E; cbn [obj_has]; rewrite E; [reflexivity|].
    exact IH.
Qed.

(** An assignment that succeeded succeeds again, and changes nothing. *)
Lemma set_property_idempotent target k v target' :
  set_property target k v = Ok target' -> set_property target' k v = Ok target'.
Proof.
  destruct target as [| |b|s|props|items props|n|ext ro props];
    cbn [set_property]; try discriminate.
  - intros [= <-]. cbn [set_property]. now rewrite obj_set_idempotent.
  - intros [= <-]. cbn [set_property]. now rewrite obj_set_idempotent.
  - destruct (existsb (jsstring_eqb k) ro) eqn:Ero; [discriminate|].
    destruct (obj_has props k || ext) eqn:Eext; [|discriminate].
    intros [= <-]. cbn [set_property].
    now rewrite Ero, obj_has_set, obj_set_idempotent.
Qed.

(** What a successful call returns: options whose
    [initializationOptions] are an object that accepts the
    assignment again. *)
Lemma configure_result o o' :
  configureCredentialsCapabilities o = Ok o' ->
  truthy (initializationOptions o') = true
  /\ set_property (initializationOptions o') (js "credentials") credentials_capability
     = Ok (initializationOptions o')
  /\ set_initializationOptions o' (initializationOptions o') = o'.
Proof.
  unfold configureCredentialsCapabilities.
  match goal with
  | |- context [set_property ?t ?k ?v] => destruct (set_property t k v) as [io|e] eqn:E
  end; [|discriminate].
  intros [= <-].
  assert (Hio : forall x, initializationOptions (set_initializationOptions x io) = io)
    by reflexivity.
  rewrite Hio.
  split; [|split].
  - destruct (initializationOptions
                (if negb (truthy (initializationOptions o))
                 then set_initializationOptions o (JObject []) else o))
      as [| |b|s|props|items props|n|ext ro props];
      cbn [set_property] in E; try discriminate E.
    + now injection E as <-.
    + now injection E as <-.
    + destruct (existsb (jsstring_eqb (js "credentials")) ro); [discriminate|].
      destruct (obj_has props (js "credentials") || ext); [|discriminate].
      now injection E as <-.
  - exact (set_property_idempotent _ _ _ _ E).
  - reflexivity.
Qed.

(** X1: configuring twice is configuring once: on the options a
    successful call returns, a second call succeeds and changes
    nothing. *)
Theorem configure_idempotent (o o' : LanguageClientOptions) :
  configureCredentialsCapabilities o = Ok o' ->
  configureCredentialsCapabilities o' = Ok o'.
Proof.
  intros H. destruct (configure_result o o' H) as (Ht & Hs & Ho).
  unfold configureCredentialsCapabilities.
  rewrite Ht. cbn [negb].
  unfold credentials_capability in Hs. rewrite Hs. now rewrite Ho.
Qed.

Lemma configure_idempotent_witness :
  configureCredentialsCapabilities (options_with (JObject []))
  = Ok (options_with (JObject [(js "credentials", credentials_capability)]))
  /\ configureCredentialsCapabilities
       (options_with (JObject [(js "credentials", credentials_capability)]))
     = Ok (options_with (JObject [(js "credentials", credentials_capability)])).
Proof.
  split; [reflexivity|].
  apply (configure_idempotent (options_with (JObject []))). reflexivity.
Defined.

(** X2: where the call returns on an object, the existing properties
    keep their order and no property is duplicated: [credentials] is
    replaced in place when the object has one and added last otherwise;
    afterwards it reads [{ providesIam: true }] whatever it held before.
    This covers plain objects, arrays and objects that restrict
    assignment. *)
Theorem configure_keeps_property_order
        (o o' : LanguageClientOptions) (props : list (jsstring * JsValue)) :
  own_properties (initializationOptions o) = Some props ->
  configureCredentialsCapabilities o = Ok o' ->
  exists props',
    own_properties (initializationOptions o') = Some props'
    /\ props' = obj_set props (js "credentials") credentials_capability
    /\ map fst props'
       = (if obj_has props (js "credentials") then map fst props
          else map fst props ++ [js "credentials"])
    /\ length props'
       = (if obj_has props (js "credentials") then length props
          else S (length props))
    /\ obj_get props' (js "credentials") = credentials_capability
    /\ (forall k, jsstring_eqb k (js "credentials") = false ->
                  obj_get props' k = obj_get props k)
    /\ match initializationOptions o, initializationOptions o' with
       | JObject _, JObject _ => True
       | JArray items _, JArray items' _ => items' = items
       | JGuarded extensible readonly _, JGuarded extensible' readonly' _ =>
           extensible' = extensible /\ readonly' = readonly
           /\ existsb (jsstring_eqb (js "credentials")) readonly = false
           /\ obj_has props (js "credentials") || extensible = true
       | _, _ => False
       end.
Proof.
  intros Hp H.
  exists (obj_set props (js "credentials") credentials_capability).
  assert (Hrest :
            map fst (obj_set props (js "credentials") credentials_capability)
            = (if obj_has props (js "credentials") then map fst props
               else map fst props ++ [js "credentials"])
            /\ length (obj_set props (js "credentials") credentials_capability)
               = (if obj_has props (js "credentials") then length props
                  else S (length props))
            /\ obj_get (obj_set props (js "credentials") credentials_capability)
                       (js "credentials") = credentials_capability
            /\ (forall k, jsstring_eqb k (js "credentials") = false ->
                          obj_get (obj_set props (js "credentials") credentials_capability) k
                          = obj_get props k)).
  { split; [apply obj_set_keys|]. split; [|split].
    - rewrite <- (length_map fst), obj_set_keys.
      destruct (obj_has props (js "credentials"));
        rewrite ?length_app, length_map; cbn [length]; lia.
    - now rewrite obj_get_set, jsstring_eqb_refl.
    - intros k Hk. now rewrite obj_get_set, Hk. }
  destruct Hrest as (H1 & H2 & H3 & H4).
  destruct o as [sel io ev]. cbn [initializationOptions] in Hp |- *.
  unfold configureCredentialsCapabilities in H.
  destruct io as [| |b|s|ps|items ps|n|ext ro ps]; try discriminate Hp;
    injection Hp as ->;
    cbn [truthy negb initializationOptions set_property] in H.
  - injection H as <-. cbn [initializationOptions set_initializationOptions own_properties].
    repeat (split; [first [reflexivity | assumption]|]). exact I.
  - injection H as <-. cbn [initializationOptions set_initializationOptions own_properties].
    repeat (split; [first [reflexivity | assumption]|]). reflexivity.
  - destruct (existsb (jsstring_eqb (js "credentials")) ro) eqn:Ero; [discriminate H|].
    destruct (obj_has props (js "credentials") || ext) eqn:Eext; [|discriminate H].
    injection H as <-. cbn [initializationOptions set_initializationOptions own_properties].
    repeat (split; [first [reflexivity | assumption]|]).
    repeat split.
Qed.

Lemma configure_keeps_property_order_witness :
  let props := [(js "region", JString (js "us-east-1"));
                (js "credentials", JNull);
                (js "retries", JNumber (Integer false 3 eq_refl))] in
  let props' := [(js "region", JString (js "us-east-1"));
                 (js "credentials", credentials_capability);
                 (js "retries", JNumber (Integer false 3 eq_refl))] in
  configureCredentialsCapabilities (options_with (JGuarded false [js "region"] props))
  = Ok (options_with (JGuarded false [js "region"] props'))
  /\ exists props'',
      own_properties (JGuarded false [js "region"] props') = Some props''
      /\ map fst props'' = [js "region"; js "credentials"; js "retries"]
      /\ length props'' = 3.
Proof.
  intros props props'.
  split; [reflexivity|].
  destruct (configure_keeps_property_order
              (options_with (JGuarded false [js "region"] props))
              (options_with (JGuarded false [js "region"] props'))
              props eq_refl eq_refl)
    as (props'' & Hown & _ & Hkeys & Hlen & _).
  exists props''. split; [exact Hown|]. split; [exact Hkeys|exact Hlen].
Defined.

End CapabilitiesMore.

(** ** The launch, continued *)

Section LaunchMore.
Import Json LanguageClient CredentialsActivation Extension.
Import CommandFacts LaunchFacts InitMessageFacts.

Lemma registered_app t1 t2 : registered (t1 ++ t2) = registered t1 ++ registered t2.
Proof.
  induction t1 as [|e t1 IH]; [reflexivity|].
  destruct e; cbn [app registered]; now rewrite ?IH.
Qed.

Lemma env_is_true_exact env name :
  env_is_true env name = true -> env name = Some (js "true").
Proof.
  unfold env_is_true. destruct (env name) as [v|]; [|discriminate].
  intros H. apply jsstring_eqb_eq in H. now subst.
Qed.

(** X3: the IAM flag alone decides whether the client announces the
    credentials capability and whether the two commands are registered;
    the token flag takes part in the choice of the startup protocol only.
    So with the token provider alone the key is handed over, and yet no
    command is registered and the initialization options stay empty. *)
Theorem iam_flag_gates_capability_and_commands
        (env : string -> option jsstring)
        (path_join : jsstring -> jsstring -> jsstring)
        (key : bytes) (ctx : ExtensionContext) (w : World) :
  let run := activateDocumentsLanguageServer env path_join key ctx w in
  exists client events,
    fst run = Ok client
    /\ trace (snd run) = trace w ++ events
    /\ initializationOptions (clientOptions client)
       = (if enableIamProvider env
          then JObject [(js "credentials", JObject [(js "providesIam", JBool true)])]
          else JObject [])
    /\ registered events
       = (if enableIamProvider env
          then [js "awslsp.selectProfile"; js "awslsp.clearProfile"]
          else [])
    /\ length (writes events)
       = (if enableIamProvider env || enableBearerTokenProvider env then 2 else 0).
Proof.
  intros run. subst run. rewrite activate_run. cbn [fst snd trace].
  eexists. eexists. split; [reflexivity|]. split; [reflexivity|].
  split; [reflexivity|].
  rewrite !registered_app, !writes_app, !length_app.
  unfold setup_events, enableEncryptionInit.
  destruct (enableIamProvider env), (enableBearerTokenProvider env),
    (enableInlineCompletion env); split; reflexivity.
Qed.

(** X4: a variable enables its feature only when its value is exactly
    the string [true].  When none of [ENABLE_INLINE_COMPLETION],
    [ENABLE_IAM_PROVIDER] and [ENABLE_TOKEN_PROVIDER] has that value,
    whatever the other variables hold, the launch spawns no process, makes
    no write and registers nothing: it creates the file watcher and starts
    a client that runs the server module over IPC. *)
Theorem launch_without_flags
        (env : string -> option jsstring)
        (path_join : jsstring -> jsstring -> jsstring)
        (key : bytes) (ctx : ExtensionContext) (w : World) :
  env "ENABLE_INLINE_COMPLETION"%string <> Some (js "true") ->
  env "ENABLE_IAM_PROVIDER"%string <> Some (js "true") ->
  env "ENABLE_TOKEN_PROVIDER"%string <> Some (js "true") ->
  activateDocumentsLanguageServer env path_join key ctx w
  = (Ok {| id := js "awsDocuments"; name := js "AWS Documents Language Server";
           serverOptions :=
             StaticServer
               {| module := server_module env path_join ctx; transport := ipc;
                  execArgv := [js "--nolazy"; js "--inspect=6012";
                               js "--preserve-symlinks"] |}
               {| module := server_module env path_join ctx; transport := ipc;
                  execArgv := [js "--nolazy"; js "--inspect=6012";
                               js "--preserve-symlinks"] |};
           clientOptions := options_with (JObject []) |},
     after_events w [EvCreateFileSystemWatcher (js "**/*.{json,yml,yaml,ts}"); EvStart]).
Proof.
  intros Hinline Hiam Htoken.
  assert (Hoff : forall name, env name <> Some (js "true") -> env_is_true env name = false).
  { intros name Hname. destruct (env_is_true env name) eqn:E; [|reflexivity].
    apply env_is_true_exact in E. now apply Hname in E. }
  rewrite activate_run.
  unfold launched_client, setup_events, enableEncryptionInit, enableIamProvider,
    enableBearerTokenProvider, enableInlineCompletion.
  rewrite (Hoff _ Hinline), (Hoff _ Hiam), (Hoff _ Htoken). reflexivity.
Qed.

Lemma launch_without_flags_witness :
  let env := fun name : string =>
               if String.eqb name "ENABLE_IAM_PROVIDER" then Some (js "TRUE")
               else if String.eqb name "ENABLE_TOKEN_PROVIDER" then Some (js "1")
               else if String.eqb name "ENABLE_INLINE_COMPLETION" then None
               else Some (js "true") in
  env "HOME"%string = Some (js "true")
  /\ fst (activateDocumentsLanguageServer
            env (fun a b => a ++ js "/" ++ b)
            sample_key {| extensionPath := js "/ext" |} sample_world)
     = Ok {| id := js "awsDocuments"; name := js "AWS Documents Language Server";
             serverOptions :=
               StaticServer
                 {| module := js "true"; transport := ipc;
                    execArgv := [js "--nolazy"; js "--inspect=6012";
                                 js "--preserve-symlinks"] |}
                 {| module := js "true"; transport := ipc;
                    execArgv := [js "--nolazy"; js "--inspect=6012";
                                 js "--preserve-symlinks"] |};
             clientOptions := options_with (JObject []) |}.
Proof.
  intros env. split; [reflexivity|].
  rewrite (launch_without_flags env (fun a b => a ++ js "/" ++ b)
             sample_key {| extensionPath := js "/ext" |} sample_world);
    [reflexivity | discriminate | discriminate | discriminate].
Defined.

(** X5: the launch sends no notification: credentials reach the worker
    through the commands only.  From loading the module to the start of the
    client exactly the 32 bytes of the key are drawn from the random
    source. *)
Theorem launch_sends_nothing
        (env : string -> option jsstring)
        (path_join : jsstring -> jsstring -> jsstring)
        (ctx : ExtensionContext) (w : World) :
  let run := launch env path_join ctx w in
  notifications (trace (snd run)) = notifications (trace w)
  /\ drawn (snd run) = drawn w + 32
  /\ entropy (snd run) = entropy w.
Proof.
  intros run. subst run.
  assert (Hrun : launch env path_join ctx w
                 = (let (r, w') := activateDocumentsLanguageServer
                                     env path_join (next_random w 32) ctx (draw w 32) in
                    match r with
                    | Ok client => (Ok (next_random w 32, client), w')
                    | Err e => (Err e, w')
                    end)) by reflexivity.
  rewrite Hrun, activate_run. cbn [snd trace drawn entropy draw].
  repeat split.
  rewrite !notifications_app. unfold setup_events.
  destruct (enableEncryptionInit env), (enableIamProvider env),
    (enableInlineCompletion env); cbn; now rewrite app_nil_r.
Qed.

(** X15: the launch depends on the key through [writeEncryptionInit]
    only.  The client returned and every call made are the same for all
    keys, except the one chunk that carries the InitMessage; a launch that
    does not require encryption does not depend on the key. *)
Theorem key_read_by_handoff_only
        (env : string -> option jsstring)
        (path_join : jsstring -> jsstring -> jsstring)
        (ctx : ExtensionContext) (w : World) :
  exists client before after,
    forall key,
      fst (activateDocumentsLanguageServer env path_join key ctx w) = Ok client
      /\ trace (snd (activateDocumentsLanguageServer env path_join key ctx w))
         = trace w ++ before
           ++ (if enableEncryptionInit env
               then [EvWrite (stdin (next_child w)) (init_message_text key)]
               else [])
           ++ after.
Proof.
  exists (launched_client env path_join ctx w).
  exists (if enableEncryptionInit env
          then [EvSpawn (js "node") (spawn_args (server_module env path_join ctx))
                        (next_child w)]
          else []).
  exists ((if enableEncryptionInit env
           then [EvWrite (stdin (next_child w)) newline] else [])
          ++ setup_events env ++ [EvStart]).
  intros key. rewrite activate_run. cbn [fst snd trace].
  split; [reflexivity|].
  unfold handoff_events. rewrite init_request_text.
  destruct (enableEncryptionInit env); reflexivity.
Qed.

End LaunchMore.

(** ** The encoder and the commands, continued *)

Section EncoderMore.
Import Json LanguageClient CredentialsActivation.
Import JsonFacts JoseFacts GcmFacts EnvelopeFacts DocumentFacts CommandFacts.

(** X6: the encoder fails exactly when the key is not 32 bytes long,
    so with the key the module draws when it is loaded
    [createUpdateIamCredentialsRequest] returns a request for every
    credentials and every state of the random source, and the envelope
    opens under that key to the plaintext. *)
Theorem module_key_always_encodes
        (w0 : World) (c : AwsSdk.AwsCredentialIdentity) (w : World) :
  let key := next_random w0 32 in
  CredentialsActivation.load w0 = (Ok key, draw w0 32)
  /\ length key = Jose.cek_length
  /\ (forall key' : bytes,
         is_ok (fst (createUpdateIamCredentialsRequest key' c w)) = (length key' =? 32))
  /\ exists envelope,
      createUpdateIamCredentialsRequest key c w = (Ok {| data := envelope |}, draw w 12)
      /\ Jose.compactDecrypt envelope key = Ok (payload c).
Proof.
  intros key.
  assert (Hkey : length key = 32) by apply next_random_length.
  split; [reflexivity|]. split; [exact Hkey|]. split.
  - intros key'. rewrite createUpdateIamCredentialsRequest_run.
    destruct (Nat.eq_dec (length key') 32) as [H|H].
    + rewrite encrypt_with_iv_ok by exact H. rewrite H. reflexivity.
    + rewrite encrypt_with_iv_bad_key by exact H.
      apply Nat.eqb_neq in H. rewrite H. reflexivity.
  - exists (Jose.join_dot (segments (payload c) key (next_random w 12))). split.
    + rewrite createUpdateIamCredentialsRequest_run. now rewrite encrypt_with_iv_ok.
    + apply compactDecrypt_segments; [exact Hkey|apply next_random_length].
Qed.

Lemma segments_iv plaintext key iv :
  nth 2 (segments plaintext key iv) [] = Jose.of_bytes (Base64.base64url_encode iv).
Proof. reflexivity. Qed.

Lemma envelope_iv plaintext plaintext' key key' iv iv' :
  Jose.join_dot (segments plaintext key iv) = Jose.join_dot (segments plaintext' key' iv') ->
  iv = iv'.
Proof.
  intros H. apply (f_equal Jose.split_dot) in H.
  rewrite !split_segments in H.
  apply (f_equal (fun l => Jose.decode_segment (nth 2 l []))) in H.
  rewrite !segments_iv, !decode_segment_encode in H. now injection H.
Qed.

(** X7: every encryption draws its own twelve bytes for the IV.  Two
    updates made one after the other for the same credentials under the
    same 32-byte key give different envelopes whenever the random source
    gives different bytes, and each of them decrypts to the
    credentials. *)
Theorem successive_envelopes_differ
        (key : bytes) (c : AwsSdk.AwsCredentialIdentity) (w : World) :
  length key = 32 ->
  next_random w 12 <> next_random (draw w 12) 12 ->
  exists e1 e2,
    update_twice key c w = (Ok ({| data := e1 |}, {| data := e2 |}), draw (draw w 12) 12)
    /\ e1 <> e2
    /\ Worker.decrypt e1 key = Some c
    /\ Worker.decrypt e2 key = Some c.
Proof.
  intros Hkey Hiv.
  exists (Jose.join_dot (segments (payload c) key (next_random w 12))).
  exists (Jose.join_dot (segments (payload c) key (next_random (draw w 12) 12))).
  split.
  - unfold update_twice, bind.
    rewrite createUpdateIamCredentialsRequest_run, encrypt_with_iv_ok by assumption.
    rewrite createUpdateIamCredentialsRequest_run, encrypt_with_iv_ok by assumption.
    reflexivity.
  - split; [intros H; now apply envelope_iv in H|].
    unfold Worker.decrypt.
    rewrite !compactDecrypt_segments by (auto using next_random_length).
    split; apply read_payload.
Qed.

Lemma successive_envelopes_differ_witness :
  length sample_key = 32
  /\ next_random sample_world 12 <> next_random (draw sample_world 12) 12
  /\ exists e1 e2,
      update_twice sample_key sample_credentials sample_world
      = (Ok ({| data := e1 |}, {| data := e2 |}), draw (draw sample_world 12) 12)
      /\ e1 <> e2
      /\ Worker.decrypt e1 sample_key = Some sample_credentials
      /\ Worker.decrypt e2 sample_key = Some sample_credentials.
Proof.
  split; [reflexivity|]. split; [discriminate|].
  apply (successive_envelopes_differ sample_key sample_credentials sample_world);
    [reflexivity | discriminate].
Defined.

(** X8: the sizes inside an envelope.  Under a 32-byte key the IV
    segment decodes to the twelve bytes drawn, the tag segment to sixteen
    bytes, and the ciphertext segment to exactly as many bytes as the
    plaintext has: nothing is padded. *)
Theorem envelope_segment_sizes
        (key : bytes) (c : AwsSdk.AwsCredentialIdentity) (w : World) :
  length key = 32 ->
  exists header iv_text ciphertext_text tag_text ciphertext tag,
    fst (createUpdateIamCredentialsRequest key c w)
    = Ok {| data := Jose.join_dot [header; []; iv_text; ciphertext_text; tag_text] |}
    /\ Jose.decode_segment iv_text = Some (next_random w 12)
    /\ length (next_random w 12) = 12
    /\ Jose.decode_segment ciphertext_text = Some ciphertext
    /\ length ciphertext = length (payload c)
    /\ Jose.decode_segment tag_text = Some tag
    /\ length tag = 16.
Proof.
  intros Hkey.
  rewrite createUpdateIamCredentialsRequest_run, encrypt_with_iv_ok by assumption.
  unfold segments. cbn [fst].
  set (ct_tag := Gcm.encrypt key (next_random w 12) _ (payload c)).
  exists (Jose.protected_b64 (JObject protectedHeader)).
  exists (Jose.of_bytes (Base64.base64url_encode (next_random w 12))).
  exists (Jose.of_bytes (Base64.base64url_encode (fst ct_tag))).
  exists (Jose.of_bytes (Base64.base64url_encode (snd ct_tag))).
  exists (fst ct_tag), (snd ct_tag).
  rewrite !decode_segment_encode.
  split; [reflexivity|]. split; [reflexivity|].
  split; [apply next_random_length|]. split; [reflexivity|].
  split; [apply ciphertext_length|]. split; [reflexivity|].
  apply tag_length.
Qed.

Lemma envelope_segment_sizes_witness :
  length sample_key = 32
  /\ exists header iv_text ciphertext_text tag_text ciphertext tag,
      fst (createUpdateIamCredentialsRequest sample_key sample_credentials sample_world)
      = Ok {| data := Jose.join_dot [header; []; iv_text; ciphertext_text; tag_text] |}
      /\ Jose.decode_segment iv_text = Some (next_random sample_world 12)
      /\ length (next_random sample_world 12) = 12
      /\ Jose.decode_segment ciphertext_text = Some ciphertext
      /\ length ciphertext = length (payload sample_credentials)
      /\ Jose.decode_segment tag_text = Some tag
      /\ length tag = 16.
Proof.
  split; [reflexivity|].
  apply (envelope_segment_sizes sample_key sample_credentials sample_world).
  reflexivity.
Defined.

Lemma quote_body_copied16 s : Forall copied16 s -> quote_body s = s.
Proof.
  induction 1 as [|c s (Hh & Hl & He) _ IH]; [reflexivity|].
  assert (E : quote_body (c :: s) = escape_char c ++ quote_body s).
  { cbn [quote_body]. rewrite Hh, Hl. reflexivity. }
  now rewrite E, He, IH.
Qed.

Lemma url_char_copied16 s :
  copied16 (of_ascii (Base64.char_of_sextet Base64.url_alphabet s)).
Proof. destruct s as [[] [] [] [] [] []]; repeat split. Qed.

Lemma base64url_copied16 bs :
  Forall copied16 (Jose.of_bytes (Base64.base64url_encode bs)).
Proof.
  unfold Jose.of_bytes. apply Forall_map.
  apply base64url_chars. apply url_char_copied16.
Qed.

Lemma segments_copied16 plaintext key iv :
  Forall copied16 (Jose.join_dot (segments plaintext key iv)).
Proof.
  assert (Hdot : copied16 Jose.dot) by (repeat split).
  unfold segments. cbn [Jose.join_dot].
  repeat (apply Forall_app; split;
          [apply base64url_copied16 || constructor | try (constructor; [exact Hdot|])]).
  apply base64url_copied16.
Qed.

(** X9: an envelope needs no escaping.  The JSON text of the request
    that [sendIamCredentialsUpdate] passes on is the envelope between
    double quotes inside the [data] wrapper, character for character. *)
Theorem update_request_text
        (key : bytes) (c : AwsSdk.AwsCredentialIdentity) (w : World) :
  length key = 32 ->
  exists envelope,
    fst (createUpdateIamCredentialsRequest key c w) = Ok {| data := envelope |}
    /\ stringify (request_value {| data := envelope |})
       = Some (data_wrapper_text (quoted envelope)).
Proof.
  intros Hkey.
  rewrite createUpdateIamCredentialsRequest_run, encrypt_with_iv_ok by assumption.
  eexists. split; [reflexivity|].
  unfold request_value, data_wrapper_text. cbn [stringify data join_comma].
  unfold quote at 2. rewrite quote_body_copied16 by apply segments_copied16.
  reflexivity.
Qed.

Lemma update_request_text_witness :
  length sample_key = 32
  /\ exists envelope,
      fst (createUpdateIamCredentialsRequest sample_key sample_credentials sample_world)
      = Ok {| data := envelope |}
      /\ stringify (request_value {| data := envelope |})
         = Some (data_wrapper_text (quoted envelope)).
Proof.
  split; [reflexivity|].
  apply (update_request_text sample_key sample_credentials sample_world). reflexivity.
Defined.

(** X10: notifications leave in the order of the commands.  A
    clear-profile that follows a successful select-profile adds the update
    and then the delete, so the delete is the last word. *)
Theorem select_then_clear
        (key : bytes) (showInputBox : jsstring -> option jsstring)
        (fromIni : option jsstring -> result AwsSdk.AwsCredentialIdentity)
        (languageClient : LanguageClient) (w : World) (c : AwsSdk.AwsCredentialIdentity) :
  length key = 32 ->
  fromIni (showInputBox selectProfile_prompt) = Ok c ->
  let run := (createSelectProfileCommand key showInputBox fromIni languageClient ;;;
              createClearProfileCommand languageClient) w in
  exists envelope,
    fst run = Ok tt
    /\ Worker.decrypt envelope key = Some c
    /\ notifications (trace (snd run))
       = notifications (trace w)
         ++ [(js "$/aws/credentials/iam/update",
              Some (JObject [(js "data", JString envelope)]));
             (js "$/aws/credentials/iam/delete", None)].
Proof.
  intros Hkey Hres run. subst run.
  exists (Jose.join_dot (segments (payload c) key (next_random w 12))).
  unfold bind. rewrite createSelectProfileCommand_run, Hres.
  rewrite encrypt_with_iv_ok by assumption.
  split; [reflexivity|]. split.
  - unfold Worker.decrypt.
    rewrite compactDecrypt_segments by (auto using next_random_length).
    apply read_payload.
  - cbn [createClearProfileCommand sendNotification emit snd trace after_events draw].
    rewrite !notifications_app. cbn [notifications]. now rewrite <- app_assoc.
Qed.

Lemma select_then_clear_witness :
  length sample_key = 32
  /\ Ok sample_credentials = Ok sample_credentials
  /\ exists envelope,
      fst ((createSelectProfileCommand sample_key (fun _ => Some (js "default"))
              (fun _ => Ok sample_credentials) sample_client ;;;
            createClearProfileCommand sample_client) sample_world) = Ok tt
      /\ Worker.decrypt envelope sample_key = Some sample_credentials
      /\ notifications
           (trace (snd ((createSelectProfileCommand sample_key
                           (fun _ => Some (js "default"))
                           (fun _ => Ok sample_credentials) sample_client ;;;
                         createClearProfileCommand sample_client) sample_world)))
         = notifications (trace sample_world)
           ++ [(js "$/aws/credentials/iam/update",
                Some (JObject [(js "data", JString envelope)]));
               (js "$/aws/credentials/iam/delete", None)].
Proof.
  split; [reflexivity|]. split; [reflexivity|].
  apply (select_then_clear sample_key (fun _ => Some (js "default"))
           (fun _ => Ok sample_credentials) sample_client sample_world
           sample_credentials); reflexivity.
Defined.

(** X11: different credentials never have the same plaintext; in
    particular an absent session token and an empty one are told
    apart. *)
Theorem payload_injective (c1 c2 : AwsSdk.AwsCredentialIdentity) :
  c1 <> c2 -> payload c1 <> payload c2.
Proof.
  intros Hne Heq. apply Hne.
  pose proof (read_payload c1) as H1. pose proof (read_payload c2) as H2.
  rewrite Heq in H1. rewrite H1 in H2. now injection H2.
Qed.

Lemma payload_injective_witness :
  sample_credentials
  <> {| AwsSdk.accessKeyId := js "AKIAEXAMPLE";
        AwsSdk.secretAccessKey := js "secretvalue";
        AwsSdk.sessionToken := Some [] |}
  /\ payload sample_credentials
     <> payload {| AwsSdk.accessKeyId := js "AKIAEXAMPLE";
                   AwsSdk.secretAccessKey := js "secretvalue";
                   AwsSdk.sessionToken := Some [] |}.
Proof.
  split; [discriminate|].
  apply (payload_injective sample_credentials). discriminate.
Defined.

End EncoderMore.

(** ** The key handoff, continued *)

Section HandoffMore.
Import Json LanguageClient CredentialsActivation Extension.
Import JsonFacts JoseFacts DocumentFacts EnvelopeFacts CommandFacts LaunchFacts
       InitMessageFacts.

Lemma read_line_app text later :
  Forall not_newline text ->
  read_line (text ++ newline ++ later) = (text, later).
Proof.
  induction 1 as [|c text Hc _ IH].
  - reflexivity.
  - cbn [app read_line]. rewrite Hc. cbn [app] in IH. now rewrite IH.
Qed.

Lemma js_not_newline lit :
  forallb (fun a => negb (Ascii.eqb a "010")) (list_ascii_of_string lit) = true ->
  Forall not_newline (js lit).
Proof.
  unfold js. induction (list_ascii_of_string lit) as [|a l IH]; cbn [forallb map].
  - constructor.
  - intros H. apply andb_true_iff in H. destruct H as [Ha Hl].
    constructor; [|now apply IH].
    unfold not_newline, of_ascii. cbn [char16_eqb].
    apply negb_true_iff in Ha. now rewrite Ha.
Qed.

Lemma std_char_not_newline s :
  not_newline (of_ascii (Base64.char_of_sextet Base64.std_alphabet s)).
Proof. destruct s as [[] [] [] [] [] []]; reflexivity. Qed.

Lemma init_message_one_line key : Forall not_newline (init_message_text key).
Proof.
  unfold init_message_text, quoted.
  repeat (apply Forall_app; split);
    try (apply js_not_newline; reflexivity);
    try (constructor; [reflexivity|]);
    repeat (apply Forall_app; split);
    try (apply js_not_newline; reflexivity);
    try (constructor; [reflexivity | constructor]).
  unfold Jose.of_bytes. apply Forall_map.
  apply encode_chars; [apply std_char_not_newline | reflexivity].
Qed.

(** X12: the InitMessage is one line.  Its text holds no newline,
    whatever the key, so a reader that takes the worker's input up to the
    first newline gets the whole message and nothing else, and what was
    written after it is left untouched. *)
Theorem init_message_is_one_line (key : bytes) (stream : Writable) (w : World)
        (later : jsstring) :
  let message := JSON_stringify (init_request key) in
  written stream (trace (snd (writeEncryptionInit key stream w)))
  = written stream (trace w) ++ [message; newline]
  /\ read_line (message ++ newline ++ later) = (message, later).
Proof.
  intros message. subst message. split.
  - cbn [writeEncryptionInit bind stream_write emit snd trace].
    rewrite <- app_assoc, written_app. cbn [app written].
    now rewrite Nat.eqb_refl.
  - rewrite init_request_text. apply read_line_app, init_message_one_line.
Qed.

Lemma read_init_message key : read_init_key (init_message_text key) = Some key.
Proof.
  unfold read_init_key. rewrite parse_init_message.
  unfold string_object.
  change (obj_get (map (fun kv => (fst kv, JString (snd kv))) (init_members key))
                  (js "key"))
    with (JString (Jose.of_bytes (Base64.toString_base64 key))).
  cbn iota. now rewrite to_bytes_of_bytes, Base64Facts.base64_roundtrip.
Qed.

(** X13: the InitMessage identifies the key: different keys, of any
    length, never give the same message. *)
Theorem init_message_injective (k1 k2 : bytes) :
  k1 <> k2 ->
  JSON_stringify (init_request k1) <> JSON_stringify (init_request k2).
Proof.
  intros Hne Heq. apply Hne.
  rewrite !init_request_text in Heq.
  pose proof (read_init_message k1) as H1. rewrite Heq, read_init_message in H1.
  now injection H1.
Qed.

Lemma init_message_injective_witness :
  sample_key <> repeat zero 32
  /\ JSON_stringify (init_request sample_key)
     <> JSON_stringify (init_request (repeat zero 32)).
Proof.
  split; [discriminate|].
  apply (init_message_injective sample_key (repeat zero 32)). discriminate.
Defined.

(** X14: the handoff and the encoder use the same key.  In a run that
    requires encryption the first line on the worker's stdin carries the
    key the module drew, and every envelope a later select-profile command
    sends decrypts, under the key read from that line, to the credentials
    the profile resolved to. *)
Theorem handoff_key_opens_updates
        (env : string -> option jsstring)
        (path_join : jsstring -> jsstring -> jsstring)
        (ctx : ExtensionContext) (w0 : World)
        (showInputBox : jsstring -> option jsstring)
        (fromIni : option jsstring -> result AwsSdk.AwsCredentialIdentity)
        (c : AwsSdk.AwsCredentialIdentity) (w : World) :
  enableEncryptionInit env = true ->
  fromIni (showInputBox selectProfile_prompt) = Ok c ->
  exists key client events line envelope,
    fst (launch env path_join ctx w0) = Ok (key, client)
    /\ trace (snd (launch env path_join ctx w0)) = trace w0 ++ events
    /\ read_line (concat (written (stdin (next_child w0)) events)) = (line, [])
    /\ read_init_key line = Some key
    /\ createSelectProfileCommand key showInputBox fromIni client w
       = (Ok tt,
          after_events (draw w 12)
            [EvSendNotification (js "$/aws/credentials/iam/update")
                                (Some (JObject [(js "data", JString envelope)]));
             EvInfo (profile_message (showInputBox selectProfile_prompt))])
    /\ Worker.decrypt envelope key = Some c.
Proof.
  intros Henc Hres.
  set (key := next_random w0 32).
  assert (Hkey : length key = 32) by apply next_random_length.
  assert (Hrun : launch env path_join ctx w0
                 = (let (r, w') := activateDocumentsLanguageServer
                                     env path_join key ctx (draw w0 32) in
                    match r with
                    | Ok client => (Ok (key, client), w')
                    | Err e => (Err e, w')
                    end)) by reflexivity.
  rewrite Hrun, activate_run, Henc. cbn [fst snd trace draw].
  exists key. eexists. eexists. exists (init_message_text key).
  exists (Jose.join_dot (segments (payload c) key (next_random w 12))).
  split; [reflexivity|]. split; [reflexivity|].
  split.
  - change (next_child (draw w0 32)) with (next_child w0).
    rewrite !written_app, handoff_written, setup_not_written.
    cbn [app written concat]. rewrite init_request_text, app_nil_r.
    change (init_message_text key ++ newline)
      with (init_message_text key ++ newline ++ []).
    apply read_line_app, init_message_one_line.
  - split; [apply read_init_message|]. split.
    + rewrite createSelectProfileCommand_run, Hres.
      now rewrite encrypt_with_iv_ok.
    + unfold Worker.decrypt.
      rewrite compactDecrypt_segments by (auto using next_random_length).
      apply read_payload.
Qed.

Lemma handoff_key_opens_updates_witness :
  enableEncryptionInit iam_env = true
  /\ Ok sample_credentials = Ok sample_credentials
  /\ exists key client events line envelope,
      fst (launch iam_env (fun a b => a ++ js "/" ++ b)
                  {| extensionPath := js "/ext" |} sample_world) = Ok (key, client)
      /\ trace (snd (launch iam_env (fun a b => a ++ js "/" ++ b)
                            {| extensionPath := js "/ext" |} sample_world))
         = trace sample_world ++ events
      /\ read_line (concat (written (stdin (next_child sample_world)) events)) = (line, [])
      /\ read_init_key line = Some key
      /\ createSelectProfileCommand key (fun _ => Some (js "default"))
           (fun _ => Ok sample_credentials) client (draw sample_world 32)
         = (Ok tt,
            after_events (draw (draw sample_world 32) 12)
              [EvSendNotification (js "$/aws/credentials/iam/update")
                                  (Some (JObject [(js "data", JString envelope)]));
               EvInfo (profile_message (Some (js "default")))])
      /\ Worker.decrypt envelope key = Some sample_credentials.
Proof.
  split; [reflexivity|]. split; [reflexivity|].
  apply (handoff_key_opens_updates iam_env (fun a b => a ++ js "/" ++ b)
           {| extensionPath := js "/ext" |} sample_world
           (fun _ => Some (js "default")) (fun _ => Ok sample_credentials)
           sample_credentials (draw sample_world 32)); reflexivity.
Defined.

End HandoffMore.
